(** * The Orchflow client of [examples/ai-integration.py]

    A shallow embedding of class [OrchflowClient]: the request/response
    correlation of [execute] and [_listen], the handler table of
    [on_event], and the fire-and-forget [subscribe].

    Python objects that are shared by reference are kept in an explicit
    store: every [asyncio.Future()] is a cell of [futures], and both the
    table [pending_requests] and the suspended [execute] hold its index.
    Code that raises leaves the mutations made so far in place, so a
    computation is a state transformer returning [Ok] or [Raise]. *)

From Stdlib Require Import ZArith String.
From Stdlib Require Import Floats.SpecFloat.
From stdpp Require Import gmap strings list fin_maps sorting.

Set Warnings "-register-all".

(** ** JSON values, as [json.loads] builds them *)

Inductive json : Type :=
  | JNull
  | JBool (b : bool)
  | JInt (n : Z)
  | JFloat (f : spec_float)
  | JStr (s : string)
  | JArr (xs : list json)
  | JObj (fields : gmap string json).

(** ** Exceptions the client code can raise *)

Inductive exn : Type :=
  | JSONDecodeError                (* json.loads on text that is not JSON *)
  | TypeError                      (* not iterable, not subscriptable, unhashable *)
  | KeyError (k : string)          (* d[k] on a dict without k *)
  | AttributeError                 (* attribute of None, .get of a non-dict *)
  | InvalidStateError              (* Future.set_result on a finished future *)
  | ConnectionClosed               (* websockets: send or receive after the close *)
  | ConnectFailed                  (* websockets.connect could not open the socket *)
  | Exception (arg : json).        (* raise Exception(response["error"]) *)

Inductive result (A : Type) : Type :=
  | Ok (a : A)
  | Raise (e : exn).
Arguments Ok {A} a.
Arguments Raise {A} e.

(** ** Python operators on decoded values *)

Module Py.

(** [k in data] for a string [k]: key membership on a dict, element
    membership on a list, substring test on a str; the other JSON
    values are not iterable. *)
Definition contains (k : string) (data : json) : result bool :=
  match data with
  | JObj fields => Ok (bool_decide (is_Some (fields !! k)))
  | JArr xs =>
      Ok (existsb (λ x, match x with
                        | JStr s => bool_decide (s = k)
                        | _ => false
                        end) xs)
  | JStr s =>
      Ok (match String.index 0 k s with Some _ => true | None => false end)
  | JNull | JBool _ | JInt _ | JFloat _ => Raise TypeError
  end.

(** [data[k]] for a string [k]. *)
Definition getitem (data : json) (k : string) : result json :=
  match data with
  | JObj fields =>
      match fields !! k with
      | Some v => Ok v
      | None => Raise (KeyError k)
      end
  | _ => Raise TypeError
  end.

(** [data.get(k)]: [None] when the key is missing. *)
Definition get (data : json) (k : string) : result json :=
  match data with
  | JObj fields => Ok (default JNull (fields !! k))
  | _ => Raise AttributeError
  end.

(** The integer a float is equal to, if any ([1.0 == 1] in Python, and
    the comparison of a float with an int is exact). *)
Definition float_as_int (f : spec_float) : option Z :=
  match f with
  | S754_zero _ => Some 0%Z
  | S754_infinity _ | S754_nan => None
  | S754_finite s m e =>
      let sign := if s then Z.opp else (λ z, z) in
      if (0 <=? e)%Z then Some (sign (Z.pos m * 2 ^ e)%Z)
      else if (Z.pos m mod 2 ^ (- e) =? 0)%Z
           then Some (sign (Z.pos m / 2 ^ (- e))%Z)
           else None
  end.

(** The int key a value hashes and compares equal to: [True == 1],
    [1.0 == 1]; lists and dicts are unhashable. *)
Definition int_key (v : json) : result (option Z) :=
  match v with
  | JInt n => Ok (Some n)
  | JBool b => Ok (Some (if b then 1%Z else 0%Z))
  | JFloat f => Ok (float_as_int f)
  | JNull | JStr _ => Ok None
  | JArr _ | JObj _ => Raise TypeError
  end.

(** The str key a value compares equal to. *)
Definition str_key (v : json) : result (option string) :=
  match v with
  | JStr s => Ok (Some s)
  | JNull | JBool _ | JInt _ | JFloat _ => Ok None
  | JArr _ | JObj _ => Raise TypeError
  end.

(** [d[v]] guarded by [v in d], for a dict with int keys: [Ok None]
    when the key is absent. *)
Definition lookup_int {V} (d : gmap Z V) (v : json) : result (option V) :=
  match int_key v with
  | Ok (Some n) => Ok (d !! n)
  | Ok None => Ok None
  | Raise e => Raise e
  end.

(** The same for a dict with str keys. *)
Definition lookup_str {V} (d : gmap string V) (v : json) : result (option V) :=
  match str_key v with
  | Ok (Some s) => Ok (d !! s)
  | Ok None => Ok None
  | Raise e => Raise e
  end.

End Py.

(** ** The client object and the asyncio runtime around it *)

(** An event handler is a coroutine function: calling it only builds a
    coroutine, which runs when the task made from it is scheduled.  Its
    body is given by what it does on an event: return, or raise. *)
Record handler : Type := Handler {
  handler_name : string;
  handler_body : json → option exn
}.

(** The websocket: whether it is still open, and the frames written to
    it.  A frame is recorded as the value handed to [json.dumps]. *)
Record connection : Type := Connection {
  is_open : bool;
  outbox : list json
}.

(** [self] of [OrchflowClient], field by field as [__init__] has them.
    A value of [pending_requests] is the index of a future in the store. *)
Record OrchflowClient : Type := Client {
  url : string;
  ws : option connection;
  request_id : Z;
  pending_requests : gmap Z nat;
  event_handlers : gmap string (list handler)
}.

(** An [asyncio.Future] of the client: pending, or finished with the
    value given to [set_result].  (The client never sets an exception on
    a future and never cancels one.) *)
Inductive future : Type :=
  | Pending
  | Finished (value : json).

(** A task made by [asyncio.create_task(handler(event))]. *)
Record task : Type := Task {
  task_coro : handler;
  task_arg : json
}.

Record world : Type := World {
  client : OrchflowClient;
  futures : list future;
  tasks : list task
}.

Definition with_client (f : OrchflowClient → OrchflowClient) (w : world) : world :=
  World (f (client w)) (futures w) (tasks w).

Definition set_ws (v : option connection) (c : OrchflowClient) : OrchflowClient :=
  Client (url c) v (request_id c) (pending_requests c) (event_handlers c).

Definition set_request_id (v : Z) (c : OrchflowClient) : OrchflowClient :=
  Client (url c) (ws c) v (pending_requests c) (event_handlers c).

Definition set_pending_requests (v : gmap Z nat) (c : OrchflowClient) : OrchflowClient :=
  Client (url c) (ws c) (request_id c) v (event_handlers c).

Definition set_event_handlers (v : gmap string (list handler)) (c : OrchflowClient)
  : OrchflowClient :=
  Client (url c) (ws c) (request_id c) (pending_requests c) v.

(** [OrchflowClient.__init__]. *)
Definition init (u : string) : OrchflowClient :=
  Client u None 0%Z ∅ ∅.

Definition boot (u : string) : world := World (init u) [] [].

(** ** Computations: state passing with exceptions *)

Definition M (A : Type) : Type := world → world * result A.

Definition ret {A} (a : A) : M A := λ w, (w, Ok a).

Definition bind {A B} (m : M A) (k : A → M B) : M B := λ w,
  match m w with
  | (w', Ok a) => k a w'
  | (w', Raise e) => (w', Raise e)
  end.

Definition lift {A} (r : result A) : M A := λ w, (w, r).

Definition self : M OrchflowClient := λ w, (w, Ok (client w)).

Definition update_self (f : OrchflowClient → OrchflowClient) : M unit :=
  λ w, (with_client f w, Ok tt).

Notation "x <- m ;; k" := (bind m (λ x, k))
  (at level 100, m at next level, right associativity).
Notation "m ;;; k" := (bind m (λ _, k))
  (at level 100, right associativity).

(** [asyncio.Future()]: a new pending cell. *)
Definition new_future : M nat := λ w,
  (World (client w) (futures w ++ [Pending]) (tasks w), Ok (length (futures w))).

(** [fut.set_result(value)]: raises on a future that is already done.
    (An index outside the store has no future behind it; the client never
    holds one, see [wf].) *)
Definition set_result (fut : nat) (value : json) : M unit := λ w,
  match futures w !! fut with
  | Some Pending =>
      (World (client w) (<[fut := Finished value]> (futures w)) (tasks w), Ok tt)
  | Some (Finished _) | None => (w, Raise InvalidStateError)
  end.

(** [asyncio.create_task(h(a))]: the task joins the loop's ready queue. *)
Definition create_task (h : handler) (a : json) : M unit := λ w,
  (World (client w) (futures w) (tasks w ++ [Task h a]), Ok tt).

(** [await self.ws.send(json.dumps(frame))]. *)
Definition ws_send (frame : json) : M unit := λ w,
  match ws (client w) with
  | None => (w, Raise AttributeError)
  | Some conn =>
      if is_open conn
      then (with_client (set_ws (Some (Connection true (outbox conn ++ [frame])))) w,
            Ok tt)
      else (w, Raise ConnectionClosed)
  end.

Fixpoint for_each {A} (xs : list A) (body : A → M unit) : M unit :=
  match xs with
  | [] => ret tt
  | x :: rest => body x ;;; for_each rest body
  end.

(** ** Frames arriving on the socket *)

(** A text frame, represented by what [json.loads] makes of it:
    [json.loads] is library code, and the client only sees its outcome.
    [Malformed] is text that is not JSON, on which [json.loads] raises
    [JSONDecodeError].  The other failures of [json.loads] (bytes that
    are not UTF-8, an integer of too many digits, nesting beyond the
    recursion limit) raise other exceptions and end the listener in the
    same way; they have no constructor here, and nothing below counts
    the exceptions an undecodable frame can raise. *)
Inductive message : Type :=
  | Malformed (raw : string)
  | Encoded (data : json).

Definition json_loads (m : message) : result json :=
  match m with
  | Malformed _ => Raise JSONDecodeError
  | Encoded data => Ok data
  end.

(** What [async for message in self.ws] meets next: a frame, the end of
    the iteration after a normal close, or [ConnectionClosed] raised out
    of the iterator after a failure. *)
Inductive arrival : Type :=
  | Frame (m : message)
  | CloseOk
  | CloseError.

(** How a run of [_listen] stands: suspended for the next frame, left by
    the end of the iteration, or ended by an exception. *)
Inductive loop : Type :=
  | Waiting
  | Returned
  | Died (e : exn).

(** ** The methods of [OrchflowClient] *)

(** [connect]: the outcome of [websockets.connect] is an input.  The
    listener task it starts is [_listen] below, fed with the arrivals of
    the new socket. *)
Definition connect (handshake : result unit) : M unit :=
  lift handshake ;;;
  update_self (set_ws (Some (Connection true []))).

(** The body of the [async for] of [_listen], for one message. *)
Definition on_message (msg : message) : M unit :=
  data <- lift (json_loads msg) ;;
  has_id <- lift (Py.contains "id" data) ;;
  if has_id : bool then
    request_id <- lift (Py.getitem data "id") ;;
    c <- self ;;
    entry <- lift (Py.lookup_int (pending_requests c) request_id) ;;
    match entry with
    | Some fut => set_result fut data
    | None => ret tt
    end
  else
    has_event <- lift (Py.contains "event" data) ;;
    if has_event : bool then
      event <- lift (Py.getitem data "event") ;;
      event_type <- lift (Py.getitem event "type") ;;
      c <- self ;;
      entry <- lift (Py.lookup_str (event_handlers c) event_type) ;;
      match entry with
      | Some handlers => for_each handlers (λ h, create_task h event)
      | None => ret tt
      end
    else ret tt.

(** The socket after the peer closed it. *)
Definition closed (w : world) : world :=
  with_client (λ c, set_ws (Connection false <$> (outbox <$> ws c)) c) w.

Fixpoint listen_loop (stream : list arrival) (w : world) : world * loop :=
  match stream with
  | [] => (w, Waiting)
  | Frame msg :: rest =>
      match on_message msg w with
      | (w', Ok _) => listen_loop rest w'
      | (w', Raise e) => (w', Died e)
      end
  | CloseOk :: _ => (closed w, Returned)
  | CloseError :: _ => (closed w, Died ConnectionClosed)
  end.

(** [_listen], run on the arrivals of [self.ws]. *)
Definition _listen (stream : list arrival) (w : world) : world * loop :=
  match ws (client w) with
  | None => (w, Died TypeError)
  | Some _ => listen_loop stream w
  end.

(** A call suspended in [execute] at [await future]. *)
Record call : Type := Call {
  call_id : Z;
  call_future : nat
}.

(** The request [execute] builds. *)
Definition execute_request (action : json) (id : Z) : json :=
  JObj (<["jsonrpc" := JStr "2.0"]>
        (<["method" := JStr "execute"]>
         (<["params" := JObj {["action" := action]}]>
          {["id" := JInt id]}))).

(** [execute] before the send: the id, the request, the future, the
    table entry.  Nothing here can raise, and there is no [await] in
    between, so no other coroutine sees a state halfway. *)
Definition execute_issue (action : json) : M (call * json) :=
  update_self (λ c, set_request_id (request_id c + 1)%Z c) ;;;
  c <- self ;;
  let request := execute_request action (request_id c) in
  fut <- new_future ;;
  update_self (λ c, set_pending_requests
                      (<[request_id c := fut]> (pending_requests c)) c) ;;;
  ret (Call (request_id c) fut, request).

(** [execute] up to [await future]. *)
Definition execute_send (action : json) : M call :=
  issued <- execute_issue action ;;
  ws_send (snd issued) ;;;
  ret (fst issued).

(** [execute] from the resumption of [await future] on. *)
Definition execute_finish (response : json) : result json :=
  match Py.contains "error" response with
  | Ok true =>
      match Py.getitem response "error" with
      | Ok err => Raise (Exception err)
      | Raise e => Raise e
      end
  | Ok false => Py.get response "result"
  | Raise e => Raise e
  end.

(** What the caller of [execute] has got: nothing while the future is
    pending, afterwards the value returned or the exception raised. *)
Definition execute_outcome (k : call) (w : world) : option (result json) :=
  match futures w !! call_future k with
  | Some (Finished response) => Some (execute_finish response)
  | Some Pending | None => None
  end.

(** [on_event(event_type)(func)]. *)
Definition on_event (event_type : string) (func : handler) (w : world) : world :=
  with_client (λ c,
    let table :=
      if decide (is_Some (event_handlers c !! event_type))
      then event_handlers c
      else <[event_type := []]> (event_handlers c) in
    set_event_handlers (alter (λ hs, hs ++ [func]) event_type table) c) w.

(** The request [subscribe] builds. *)
Definition subscribe_request (events : list string) : json :=
  JObj (<["jsonrpc" := JStr "2.0"]>
        (<["method" := JStr "subscribe"]>
         {["params" := JObj {["events" := JArr (JStr <$> events)]}]})).

Definition subscribe (events : list string) : M unit :=
  ws_send (subscribe_request events).

(** ** The event loop running the tasks that were created *)

(** A task runs its coroutine; an exception that escapes is stored in
    the task and goes no further. *)
Definition run_task (t : task) : handler * option exn :=
  (task_coro t, handler_body (task_coro t) (task_arg t)).

Definition run_ready (ts : list task) : list (handler * option exn) :=
  run_task <$> ts.

(** ** Runs of the client *)

(** What can happen to a client: a call of one of its methods, or the
    listener taking the next arrival from the socket. *)
Inductive op : Type :=
  | Connect (handshake : result unit)
  | Execute (action : json)
  | OnEvent (event_type : string) (func : handler)
  | Subscribe (events : list string)
  | Receive (a : arrival).

(** The call an [execute] issues, whether or not its send succeeds. *)
Definition issued (action : json) (w : world) : list call :=
  match execute_issue action w with
  | (_, Ok (k, _)) => [k]
  | (_, Raise _) => []
  end.

Definition step (o : op) (w : world) : world * list call :=
  match o with
  | Connect handshake => (fst (connect handshake w), [])
  | Execute action => (fst (execute_send action w), issued action w)
  | OnEvent event_type func => (on_event event_type func w, [])
  | Subscribe events => (fst (subscribe events w), [])
  | Receive a => (fst (listen_loop [a] w), [])
  end.

(** A run, with the calls issued along it, oldest first. *)
Fixpoint run (ops : list op) (w : world) : world * list call :=
  match ops with
  | [] => (w, [])
  | o :: rest =>
      let w1 := fst (step o w) in
      (fst (run rest w1), snd (step o w) ++ snd (run rest w1))
  end.

(** The number of calls of [execute] among the operations of a run. *)
Fixpoint executes (ops : list op) : nat :=
  match ops with
  | [] => 0
  | Execute _ :: rest => S (executes rest)
  | _ :: rest => executes rest
  end.

(** The bookkeeping invariant: the table holds only ids handed out so
    far, every entry points into the store, and no future is entered
    under two ids. *)
Record wf (w : world) : Prop := {
  wf_ids : ∀ n fut,
    pending_requests (client w) !! n = Some fut → (n ≤ request_id (client w))%Z;
  wf_store : ∀ n fut,
    pending_requests (client w) !! n = Some fut → fut < length (futures w);
  wf_inj : ∀ n m fut,
    pending_requests (client w) !! n = Some fut →
    pending_requests (client w) !! m = Some fut → n = m
}.

(** ** Vocabulary of the statements *)

(** The frames of a list of responses, in the order of the list.  A
    response is given with the call it answers. *)
Definition frames (rs : list (call * gmap string json)) : list arrival :=
  (λ r, Frame (Encoded (JObj r.2))) <$> rs.

(** A call is outstanding: its id is in the table with its future, and
    that future is pending. *)
Definition outstanding (k : call) (w : world) : Prop :=
  pending_requests (client w) !! call_id k = Some (call_future k) ∧
  futures w !! call_future k = Some Pending.

(** ** Sample clients and frames *)

Definition sample_url : string := "ws://localhost:7777".

Definition sample_action : json :=
  JObj (<["type" := JStr "run_command"]> {["command" := JStr "npm test"]}).

(** A connected client that has called [execute] [n] times. *)
Definition after_calls (n : nat) : world :=
  fst (run (Connect (Ok tt) :: replicate n (Execute sample_action))
           (boot sample_url)).

(** [{"id": n, "result": "ok"}] *)
Definition reply (n : Z) : gmap string json :=
  <["id" := JInt n]> {["result" := JStr "ok"]}.

(** [{"code": -32000, "message": "no such pane"}] *)
Definition sample_error : json :=
  JObj (<["code" := JInt (-32000)]> {["message" := JStr "no such pane"]}).

(** [{"id": n, "error": {"code": -32000, "message": "no such pane"}}] *)
Definition error_reply (n : Z) : gmap string json :=
  <["id" := JInt n]> {["error" := sample_error]}.

(** Five calls issued, the first two answered: 3, 4 and 5 outstanding. *)
Definition three_outstanding : world :=
  fst (_listen (frames [(Call 1 0, reply 1); (Call 2 1, reply 2)]) (after_calls 5)).

(** The answers to calls 2 and 1, arriving in that order. *)
Definition swapped_replies : list (call * gmap string json) :=
  [(Call 2 1, reply 2); (Call 1 0, reply 1)].

(** [{"event": {"type": "pane_output", "pane_id": 7}}] *)
Definition sample_event : gmap string json :=
  <["type" := JStr "pane_output"]> {["pane_id" := JInt 7]}.

Definition sample_event_frame : gmap string json :=
  {["event" := JObj sample_event]}.


Definition quiet_handler : handler := Handler "H1" (λ _, None).
Definition failing_handler : handler := Handler "H2" (λ _, Some (KeyError "data")).
Definition last_handler : handler := Handler "H3" (λ _, None).

(** A session: connect, subscribe, register, two calls, one answer. *)
Definition sample_session : list op :=
  [Connect (Ok tt);
   Subscribe ["pane_output"; "command_completed"];
   OnEvent "pane_output" quiet_handler;
   Execute sample_action;
   Execute sample_action;
   Receive (Frame (Encoded (JObj (reply 1))));
   Execute sample_action].


(** The socket of [after_calls 1]: open, with the one request sent. *)
Definition socket_after_one_call : connection :=
  Connection true [execute_request sample_action 1].

(** Three handlers registered for ["pane_output"], and the tasks one
    event of that type makes of them. *)
Definition three_registered : world :=
  foldl (λ w h, on_event "pane_output" h w) (after_calls 0)
        [quiet_handler; failing_handler; last_handler].

Definition three_spawned : list task :=
  [Task quiet_handler (JObj sample_event);
   Task failing_handler (JObj sample_event);
   Task last_handler (JObj sample_event)].

(** Call 1 answered twice, then call 2 answered. *)
Definition duplicate_stream : list arrival :=
  frames [(Call 1 0, reply 1); (Call 1 0, reply 1); (Call 2 1, reply 2)].

Definition good_frame : arrival := Frame (Encoded (JObj (reply 1))).

(** ** More sample frames *)

(** [{"id": 1, "result": "ok", "event": {"type": "pane_output", "pane_id": 7}}] *)
Definition reply_with_event : gmap string json :=
  <["event" := JObj sample_event]> (reply 1).

(** [{"id": true, "result": "ok"}] and [{"id": 1.0, "result": "ok"}] *)
Definition reply_true : gmap string json :=
  <["id" := JBool true]> {["result" := JStr "ok"]}.
Definition reply_float : gmap string json :=
  <["id" := JFloat (S754_finite false 1 0)]> {["result" := JStr "ok"]}.

(** [{"id": "1", "result": "ok"}] and [{"id": [1], "result": "ok"}] *)
Definition reply_text_id : gmap string json :=
  <["id" := JStr "1"]> {["result" := JStr "ok"]}.
Definition reply_list_id : gmap string json :=
  <["id" := JArr [JInt 1]]> {["result" := JStr "ok"]}.

(** [{"id": 1}]: an answer with neither result nor error. *)
Definition bare_reply : gmap string json := {["id" := JInt 1]}.

(** [{"event": {"pane_id": 7}}], [{"event": "pane_output"}] and
    [{"event": {"type": ["pane_output"]}}] *)
Definition untyped_event_frame : gmap string json :=
  {["event" := JObj {["pane_id" := JInt 7]}]}.
Definition flat_event_frame : gmap string json :=
  {["event" := JStr "pane_output"]}.
Definition list_typed_event_frame : gmap string json :=
  {["event" := JObj {["type" := JArr [JStr "pane_output"]]}]}.

(** One handler registered for ["pane_output"] on a connected client with
    one call outstanding. *)
Definition one_registered : world :=
  on_event "pane_output" quiet_handler (after_calls 1).

(** On a client built by [__init__], the counter counts the futures, and
    the table holds exactly the ids up to the counter, the call with id
    [n] having the [n]-th future. *)
Definition tidy (w : world) : Prop :=
  request_id (client w) = Z.of_nat (length (futures w)) ∧
  ∀ n, pending_requests (client w) !! n =
       if decide (1 ≤ n ≤ request_id (client w))%Z
       then Some (Z.to_nat (n - 1)) else None.

(** Two calls issued, call 1 answered. *)
Definition one_answered : world :=
  fst (_listen [good_frame] (after_calls 2)).

(** * The example agent: class [TestDrivenAI]

    The agent's methods are coroutines that call the client, print, and
    wait.  A coroutine is kept as the sequence of its steps, with the
    points where it is suspended made explicit. *)

From Stdlib Require Import Ascii.

(** ** [==] on decoded values *)

Module PyEq.





End PyEq.

(** ** The methods of [str] the agent uses

    A [str] is kept as its UTF-8 bytes.  Searching for a substring and
    splitting at an ASCII character give the same on the bytes as on the
    characters. *)

Module PyStr.

(** [needle in s] *)
Definition contains (needle s : string) : bool :=
  match String.index 0 needle s with Some _ => true | None => false end.

(** [s.split(sep)] for a separator of one ASCII character: the pieces
    between the separators, at least one piece. *)
Fixpoint split (sep : Ascii.ascii) (s : string) : list string :=
  match s with
  | EmptyString => [EmptyString]
  | String c rest =>
      if Ascii.eqb c sep then EmptyString :: split sep rest
      else match split sep rest with
           | piece :: pieces => String c piece :: pieces
           | [] => [String c EmptyString]
           end
  end.

(** The characters [str.strip()] removes, by the bytes of their UTF-8
    form.  One byte: U+0009..U+000D, U+001C..U+0020. *)
Definition space1 (a : Ascii.ascii) : bool :=
  let n := Ascii.nat_of_ascii a in
  (9 <=? n) && (n <=? 13) || (28 <=? n) && (n <=? 32).

(** Two bytes: U+0085 (C2 85) and U+00A0 (C2 A0). *)
Definition space2 (a b : Ascii.ascii) : bool :=
  (Ascii.nat_of_ascii a =? 194) &&
  ((Ascii.nat_of_ascii b =? 133) || (Ascii.nat_of_ascii b =? 160)).

(** Three bytes: U+1680 (E1 9A 80); U+2000..U+200A, U+2028, U+2029,
    U+202F (E2 80 80..8A, A8, A9, AF); U+205F (E2 81 9F); U+3000
    (E3 80 80). *)
Definition space3 (a b c : Ascii.ascii) : bool :=
  let x := Ascii.nat_of_ascii a in
  let y := Ascii.nat_of_ascii b in
  let z := Ascii.nat_of_ascii c in
  (x =? 225) && (y =? 154) && (z =? 128) ||
  (x =? 226) && (y =? 128) &&
    ((128 <=? z) && (z <=? 138) || (z =? 168) || (z =? 169) || (z =? 175)) ||
  (x =? 226) && (y =? 129) && (z =? 159) ||
  (x =? 227) && (y =? 128) && (z =? 128).

(** Dropping the leading characters recognised by [one], [two] and
    [three]. *)
Fixpoint drop_leading (one : Ascii.ascii → bool) (two : Ascii.ascii → Ascii.ascii → bool)
    (three : Ascii.ascii → Ascii.ascii → Ascii.ascii → bool) (s : string) : string :=
  match s with
  | String a r1 =>
      if one a then drop_leading one two three r1
      else match r1 with
           | String b r2 =>
               if two a b then drop_leading one two three r2
               else match r2 with
                    | String c r3 =>
                        if three a b c then drop_leading one two three r3
                        else s
                    | EmptyString => s
                    end
           | EmptyString => s
           end
  | EmptyString => s
  end.

Definition lstrip (s : string) : string :=
  drop_leading space1 space2 space3 s.

(** The same from the end: on the reversed bytes, with the bytes of a
    character in reverse. *)
Definition rstrip (s : string) : string :=
  String.rev (drop_leading space1 (λ b a, space2 a b) (λ c b a, space3 a b c)
                           (String.rev s)).

(** [s.strip()] *)
Definition strip (s : string) : string := rstrip (lstrip s).

End PyStr.

(** ** The agent, what it prints, and its coroutines *)

(** The fields of [TestDrivenAI] beside [client], which is the client of
    the world.  [None] is [JNull]. *)
Record TestDrivenAI : Type := Agent {
  test_pane_id : json;
  editor_pane_id : json;
  current_session_id : json
}.

(** One call of [print], by the text it has in the source; a value
    formatted into the text is kept as the value. *)
Inductive line : Type :=
  | RunningTests                        (* "Running tests..." *)
  | FailureDetected (output : json)     (* "Test failure detected: {output}" *)
  | AllPassed                           (* "All tests passed!" *)
  | TestsFailed (exit_code : json)      (* "Tests failed with exit code: {...}" *)
  | OpeningFile (file_path : string)    (* "Opening file: {file_path}" *)
  | AttemptingFix (file_path : string)  (* "Attempting to fix: {file_path}" *)
  | SavedFix (file_path : string)       (* "Saved fix to: {file_path}" *)
  | StartingDevelopment (feature : string)  (* "Starting development of: {...}" *)
  | SessionComplete                     (* "Development session complete!" *)
  | ErrorLine (e : exn).                (* "Error: {e}" *)

(** A coroutine, step by step: it returns or raises; prints; reads or
    assigns a field of [self]; connects; calls a method of the client
    that does not wait for a frame; does the first part of [execute], up
    to the send; or is suspended, on the future of a call ([Await]) or
    in [asyncio.sleep] ([Pause]). *)
Inductive coro (A : Type) : Type :=
  | Ret (a : A)
  | Throw (e : exn)
  | Say (l : line) (k : coro A)
  | Self (k : TestDrivenAI → coro A)
  | Assign (f : TestDrivenAI → TestDrivenAI) (k : coro A)
  | Open (handshake : result unit) (k : result unit → coro A)
  | Tell (method : M unit) (k : result unit → coro A)
  | Issue (action : json) (k : result call → coro A)
  | Await (fut : nat) (k : json → coro A)
  | Pause (k : coro A).
Arguments Ret {A} a.
Arguments Throw {A} e.
Arguments Say {A} l k.
Arguments Self {A} k.
Arguments Assign {A} f k.
Arguments Open {A} handshake k.
Arguments Tell {A} method k.
Arguments Issue {A} action k.
Arguments Await {A} fut k.
Arguments Pause {A} k.

(** One coroutine after another; an exception of the first ends both. *)
Fixpoint andthen {A B} (c : coro A) (f : A → coro B) : coro B :=
  match c with
  | Ret a => f a
  | Throw e => Throw e
  | Say l k => Say l (andthen k f)
  | Self k => Self (λ self, andthen (k self) f)
  | Assign g k => Assign g (andthen k f)
  | Open handshake k => Open handshake (λ r, andthen (k r) f)
  | Tell method k => Tell method (λ r, andthen (k r) f)
  | Issue action k => Issue action (λ r, andthen (k r) f)
  | Await fut k => Await fut (λ r, andthen (k r) f)
  | Pause k => Pause (andthen k f)
  end.

Notation "x <~ c ;; k" := (andthen c (λ x, k))
  (at level 100, c at next level, right associativity).



(** The value of an expression that may raise. *)
Definition raising {A} (r : result A) : coro A :=
  match r with
  | Ok a => Ret a
  | Raise e => Throw e
  end.

(** [await self.client.execute(action)], as one coroutine: the send, the
    wait for the future, the rest. *)
Definition execute (action : json) : coro json :=
  Issue action (λ sent,
    match sent with
    | Raise e => Throw e
    | Ok k => Await (call_future k) (λ response,
                raising (execute_finish response))
    end).


(** ** The methods of [TestDrivenAI] *)

Definition run_tests_action (pane : json) : json :=
  JObj (<["type" := JStr "run_command"]>
        (<["pane_id" := pane]>
         {["command" := JStr "npm test"]})).

Definition run_tests : coro unit :=
  Say RunningTests
    (Self (λ self,
       _ <~ execute (run_tests_action (test_pane_id self)) ;;
       Ret tt)).

Definition open_file_action (file_path : string) (pane : json) : json :=
  JObj (<["type" := JStr "open_file"]>
        (<["path" := JStr file_path]>
         {["pane_id" := pane]})).

(** ["// Fixed by AI\n" + "export function fixedFunction() { return true; }"] *)
Definition fixed_content : string :=
  "// Fixed by AI" ++ String "010"%char
    "export function fixedFunction() { return true; }".

Definition save_file_action (file_path : string) : json :=
  JObj (<["type" := JStr "save_file"]>
        (<["path" := JStr file_path]>
         {["content" := JStr fixed_content]})).

Definition open_and_fix_file (file_path : string) : coro unit :=
  Say (OpeningFile file_path)
    (Self (λ self,
       _ <~ execute (open_file_action file_path (editor_pane_id self)) ;;
       Pause
         (Say (AttemptingFix file_path)
            (_ <~ execute (save_file_action file_path) ;;
             Say (SavedFix file_path)
               run_tests)))).





Definition subscribed_events : list string :=
  ["pane_output"; "command_completed"; "file_opened"; "file_saved"].

Definition create_session_action : json :=
  JObj (<["type" := JStr "create_session"]>
        {["name" := JStr "AI Development Session"]}).

Definition create_pane_action (session : json) (pane_type : string) : json :=
  JObj (<["type" := JStr "create_pane"]>
        (<["session_id" := session]>
         (<["pane_type" := JStr pane_type]>
          {["command" := JNull]}))).

(** [setup].  The outcome of the handshake is an input, and so are the
    two bound methods [self.handle_pane_output] and
    [self.handle_command_completed], as the handler objects they are
    registered as. *)
Definition setup (handshake : result unit) (on_output on_completed : handler)
  : coro unit :=
  _ <~ Open handshake raising ;;
  _ <~ Tell (subscribe subscribed_events) raising ;;
  _ <~ Tell (λ w, (on_event "pane_output" on_output w, Ok tt)) raising ;;
  _ <~ Tell (λ w, (on_event "command_completed" on_completed w, Ok tt)) raising ;;
  result <~ execute create_session_action ;;
  session <~ raising (Py.getitem result "id") ;;
  Assign (λ self, Agent (test_pane_id self) (editor_pane_id self) session)
    (Self (λ self,
       test_pane <~ execute (create_pane_action (current_session_id self) "terminal") ;;
       test_id <~ raising (Py.getitem test_pane "id") ;;
       Assign (λ self, Agent test_id (editor_pane_id self) (current_session_id self))
         (Self (λ self,
            editor_pane <~
              execute (create_pane_action (current_session_id self) "editor") ;;
            editor_id <~ raising (Py.getitem editor_pane "id") ;;
            Assign (λ self, Agent (test_pane_id self) editor_id
                                  (current_session_id self))
              (Ret tt))))).



(** ** Running one coroutine beside the listener

    The machine holds the world, the listener started by [connect] (none
    before), the fields of the agent, what was printed, and the arrivals
    still to come, cut at the suspensions of the coroutine: while the
    coroutine is suspended the listener takes the next piece, whole.  A
    send is taken as one step.

    A task the listener makes for a handler would run at that same
    suspension, before the coroutine goes on, and the handlers of the
    agent print and send.  A [handler] here has no such body, so a run
    is followed only as long as the listener makes no task: when it
    makes one, the run stops as [Handling], and nothing is said about
    what comes after.  Tasks made before the run are taken to have
    ended. *)
Record machine : Type := Machine {
  m_world : world;
  m_listener : option loop;
  m_self : TestDrivenAI;
  m_printed : list line;
  m_feed : list (list arrival)
}.

Inductive progress (A : Type) : Type :=
  | Done (r : result A)
  | Suspended
  | Handling.
Arguments Done {A} r.
Arguments Suspended {A}.
Arguments Handling {A}.

(** The listener, if it is still running, takes a piece of the stream. *)
Definition hear (piece : list arrival) (m : machine) : machine :=
  match m_listener m with
  | Some Waiting =>
      Machine (fst (listen_loop piece (m_world m)))
              (Some (snd (listen_loop piece (m_world m))))
              (m_self m) (m_printed m) (m_feed m)
  | _ => m
  end.

Definition with_world (w : world) (m : machine) : machine :=
  Machine w (m_listener m) (m_self m) (m_printed m) (m_feed m).

(** Whether the listener made a task between two machines (it only ever
    adds tasks). *)
Definition started_handler (m m' : machine) : bool :=
  negb (length (tasks (m_world m')) =? length (tasks (m_world m))).

Fixpoint drive {A} (c : coro A) (m : machine) : machine * progress A :=
  match c with
  | Ret a => (m, Done (Ok a))
  | Throw e => (m, Done (Raise e))
  | Say l k =>
      drive k (Machine (m_world m) (m_listener m) (m_self m)
                       (m_printed m ++ [l]) (m_feed m))
  | Self k => drive (k (m_self m)) m
  | Assign f k =>
      drive k (Machine (m_world m) (m_listener m) (f (m_self m))
                       (m_printed m) (m_feed m))
  | Open handshake k =>
      match connect handshake (m_world m) with
      | (w, Ok u) =>
          drive (k (Ok u)) (Machine w (Some Waiting) (m_self m)
                                    (m_printed m) (m_feed m))
      | (w, Raise e) => drive (k (Raise e)) (with_world w m)
      end
  | Tell method k =>
      drive (k (snd (method (m_world m))))
            (with_world (fst (method (m_world m))) m)
  | Issue action k =>
      drive (k (snd (execute_send action (m_world m))))
            (with_world (fst (execute_send action (m_world m))) m)
  | Await fut k =>
      match m_feed m with
      | [] => (m, Suspended)
      | piece :: feed =>
          let m' := hear piece (Machine (m_world m) (m_listener m) (m_self m)
                                        (m_printed m) feed) in
          if started_handler m m' then (m', Handling) else
          match futures (m_world m') !! fut with
          | Some (Finished response) => drive (k response) m'
          | Some Pending | None => (m', Suspended)
          end
      end
  | Pause k =>
      match m_feed m with
      | [] => (m, Suspended)
      | piece :: feed =>
          let m' := hear piece (Machine (m_world m) (m_listener m) (m_self m)
                                        (m_printed m) feed) in
          if started_handler m m' then (m', Handling) else drive k m'
      end
  end.

(** [ai = TestDrivenAI()], with the arrivals to come. *)
Definition fresh (feed : list (list arrival)) : machine :=
  Machine (boot "ws://localhost:7777") None (Agent JNull JNull JNull) [] feed.

(** The machine after one more line was printed. *)
Definition printing (l : line) (m : machine) : machine :=
  Machine (m_world m) (m_listener m) (m_self m) (m_printed m ++ [l]) (m_feed m).

(** ** Vocabulary for the runs of the agent *)

(** The machine is on an open socket and its listener is running. *)
Definition live (m : machine) : Prop :=
  (∃ conn, ws (client (m_world m)) = Some conn ∧ is_open conn = true) ∧
  m_listener m = Some Waiting.

(** The frames written to the socket so far. *)
Definition written (m : machine) : list json :=
  default [] (outbox <$> ws (client (m_world m))).

(** The machine after [action] was sent from [m] and answered by the
    frame [fields], the next piece of the feed. *)
Definition round_trip (action : json) (fields : gmap string json) (m : machine)
  : machine :=
  let w := m_world m in
  let n := (request_id (client w) + 1)%Z in
  Machine
    (World (Client (url (client w))
                   (Some (Connection true (written m ++ [execute_request action n])))
                   n
                   (<[n := length (futures w)]> (pending_requests (client w)))
                   (event_handlers (client w)))
           (futures w ++ [Finished (JObj fields)])
           (tasks w))
    (Some Waiting) (m_self m) (m_printed m) (tail (m_feed m)).

(** The piece of the feed that is the one frame [fields]. *)
Definition answer (fields : gmap string json) : list arrival :=
  [Frame (Encoded (JObj fields))].

(** The fresh agent after its [setup] went as far as the registration of
    the two handlers: connected, the subscription sent, the listener
    running. *)
Definition registered (on_output on_completed : handler)
    (feed : list (list arrival)) : machine :=
  Machine
    (World (Client "ws://localhost:7777"
                   (Some (Connection true [subscribe_request subscribed_events]))
                   0 ∅
                   (<["command_completed" := [on_completed]]>
                      {["pane_output" := [on_output]]}))
           [] [])
    (Some Waiting) (Agent JNull JNull JNull) [] feed.

(** The machine after a field of [self] was assigned. *)
Definition with_self (a : TestDrivenAI) (m : machine) : machine :=
  Machine (m_world m) (m_listener m) a (m_printed m) (m_feed m).

(** The fresh agent after a [setup] whose three calls were answered by
    the frames [r1], [r2] and [r3], giving the ids [session], [test] and
    [editor]. *)
Definition set_up (on_output on_completed : handler)
    (r1 r2 r3 : gmap string json) (session test editor : json)
    (feed : list (list arrival)) : machine :=
  with_self (Agent test editor session)
    (round_trip (create_pane_action session "editor") r3
       (with_self (Agent test JNull session)
          (round_trip (create_pane_action session "terminal") r2
             (with_self (Agent JNull JNull session)
                (round_trip create_session_action r1
                   (registered on_output on_completed
                      (answer r1 :: answer r2 :: answer r3 :: feed))))))).

(** ** Sample runs of the agent *)

(** [{"id": n, "result": {"id": v}}] *)
Definition created_reply (n : Z) (v : json) : gmap string json :=
  <["id" := JInt n]> {["result" := JObj {["id" := v]}]}.

(** The agent after a [setup] that gave it the session ["s1"], the test
    pane 10 and the editor pane 11. *)
Definition ready (feed : list (list arrival)) : machine :=
  set_up quiet_handler last_handler
         (created_reply 1 (JStr "s1")) (created_reply 2 (JInt 10))
         (created_reply 3 (JInt 11))
         (JStr "s1") (JInt 10) (JInt 11) feed.


(** The output of a failing test, with a stack trace. *)
Definition failing_output : string :=
  "FAIL src/app.test.js" ++ String "010"%char
  ("Error: expected true" ++ String "010"%char
  ("    at src/app.js:10:5" ++ String "010"%char
   "    at lib/run.ts:3:1")).


(** The answers to the calls with ids 4, 5 and 6, with a quiet sleep
    after the first. *)
Definition fix_feed : list (list arrival) :=
  [answer (reply 4); []; answer (reply 5); answer (reply 6)].



(** * Properties *)

(** ** Evaluation of the building blocks *)

Lemma world_eta w : World (client w) (futures w) (tasks w) = w.
Proof. by destruct w. Qed.

Lemma for_each_create_task hs a w :
  for_each hs (λ h, create_task h a) w =
  (World (client w) (futures w) (tasks w ++ ((λ h, Task h a) <$> hs)), Ok tt).
Proof.
  revert w. induction hs as [|h hs IH]; intros w; simpl.
  - unfold ret. by rewrite app_nil_r, world_eta.
  - unfold bind, create_task at 1. rewrite IH. simpl.
    by rewrite <- app_assoc.
Qed.

(** A frame that is an object with an integer ["id"] goes to the table. *)
Lemma on_message_response fields n w :
  fields !! "id" = Some (JInt n) →
  on_message (Encoded (JObj fields)) w =
    match pending_requests (client w) !! n with
    | Some fut => set_result fut (JObj fields) w
    | None => (w, Ok tt)
    end.
Proof.
  intros Hid. unfold on_message, bind, lift, self. simpl.
  rewrite Hid. simpl. by destruct (pending_requests (client w) !! n).
Qed.

(** A frame that is an object without ["id"], whose ["event"] is an
    object with a string ["type"], goes to the handlers. *)
Lemma on_message_event fields ev t w :
  fields !! "id" = None →
  fields !! "event" = Some (JObj ev) →
  ev !! "type" = Some (JStr t) →
  on_message (Encoded (JObj fields)) w =
    match event_handlers (client w) !! t with
    | Some hs =>
        (World (client w) (futures w) (tasks w ++ ((λ h, Task h (JObj ev)) <$> hs)),
         Ok tt)
    | None => (w, Ok tt)
    end.
Proof.
  intros Hid Hev Hty. unfold on_message, bind, lift, self. simpl.
  rewrite Hid, Hev. simpl. rewrite Hty. simpl.
  destruct (event_handlers (client w) !! t); [|done].
  apply for_each_create_task.
Qed.

Lemma set_result_client fut v w : client (fst (set_result fut v w)) = client w.
Proof. unfold set_result. by destruct (futures w !! fut) as [[]|]. Qed.

Lemma set_result_length fut v w :
  length (futures (fst (set_result fut v w))) = length (futures w).
Proof.
  unfold set_result. destruct (futures w !! fut) as [[]|]; simpl; try done.
  apply length_insert.
Qed.

(** The listener never writes a field of the client object. *)
Lemma on_message_client msg w : client (fst (on_message msg w)) = client w.
Proof.
  unfold on_message, bind, lift, self. destruct msg as [raw|data]; simpl; [done|].
  destruct (Py.contains "id" data) as [[]|]; simpl; try done.
  - destruct (Py.getitem data "id"); simpl; try done.
    destruct (Py.lookup_int _ _) as [[fut|]|]; simpl; try done.
    apply set_result_client.
  - destruct (Py.contains "event" data) as [[]|]; simpl; try done.
    destruct (Py.getitem data "event") as [ev|]; simpl; try done.
    destruct (Py.getitem ev "type"); simpl; try done.
    destruct (Py.lookup_str _ _) as [[hs|]|]; simpl; try done.
    by rewrite for_each_create_task.
Qed.

(** Nor does it create or drop a future. *)
Lemma on_message_length msg w :
  length (futures (fst (on_message msg w))) = length (futures w).
Proof.
  unfold on_message, bind, lift, self. destruct msg as [raw|data]; simpl; [done|].
  destruct (Py.contains "id" data) as [[]|]; simpl; try done.
  - destruct (Py.getitem data "id"); simpl; try done.
    destruct (Py.lookup_int _ _) as [[fut|]|]; simpl; try done.
    apply set_result_length.
  - destruct (Py.contains "event" data) as [[]|]; simpl; try done.
    destruct (Py.getitem data "event") as [ev|]; simpl; try done.
    destruct (Py.getitem ev "type"); simpl; try done.
    destruct (Py.lookup_str _ _) as [[hs|]|]; simpl; try done.
    by rewrite for_each_create_task.
Qed.

(** ** The bookkeeping of [execute] *)

Lemma execute_issue_eq action w :
  execute_issue action w =
  (World (Client (url (client w)) (ws (client w)) (request_id (client w) + 1)
            (<[(request_id (client w) + 1)%Z := length (futures w)]>
               (pending_requests (client w)))
            (event_handlers (client w)))
         (futures w ++ [Pending]) (tasks w),
   Ok (Call (request_id (client w) + 1) (length (futures w)),
       execute_request action (request_id (client w) + 1))).
Proof. reflexivity. Qed.

(** The send changes the socket at most. *)
Lemma execute_send_world action w :
  ∃ sock, fst (execute_send action w) =
          with_client (set_ws sock) (fst (execute_issue action w)).
Proof.
  unfold execute_send, bind. rewrite execute_issue_eq. simpl.
  unfold ws_send. simpl. destruct (ws (client w)) as [conn|]; simpl.
  - destruct (is_open conn); simpl; eauto.
  - eauto.
Qed.

Lemma ws_send_world frame w :
  ∃ sock, fst (ws_send frame w) = with_client (set_ws sock) w.
Proof.
  unfold ws_send. destruct (ws (client w)) as [conn|] eqn:E; simpl.
  - destruct (is_open conn); simpl; eauto.
    exists (Some conn). destruct w as [[]]. simpl in *. by subst.
  - exists None. destruct w as [[]]. simpl in *. by subst.
Qed.

Lemma connect_world handshake w :
  ∃ sock, fst (connect handshake w) = with_client (set_ws sock) w.
Proof.
  unfold connect, bind, lift. destruct handshake; simpl; eauto.
  exists (ws (client w)). by destruct w as [[]].
Qed.

Lemma listen_one_client a w :
  ∃ sock, client (fst (listen_loop [a] w)) = set_ws sock (client w).
Proof.
  assert (Hid : ∀ c, c = set_ws (ws c) c) by (by intros []).
  destruct a as [msg| |]; simpl; eauto.
  exists (ws (client w)). rewrite <- Hid.
  pose proof (on_message_client msg w) as Hc.
  by destruct (on_message msg w) as [w' []].
Qed.

Lemma listen_one_length a w :
  length (futures (fst (listen_loop [a] w))) = length (futures w).
Proof.
  destruct a as [msg| |]; simpl; try done.
  pose proof (on_message_length msg w) as Hl.
  by destruct (on_message msg w) as [w' []].
Qed.

(** Whatever does not touch the counter, the table or the size of the
    store keeps the invariant. *)
Lemma wf_same w w' :
  pending_requests (client w') = pending_requests (client w) →
  request_id (client w') = request_id (client w) →
  length (futures w') = length (futures w) →
  wf w → wf w'.
Proof.
  intros Hp Hr Hl [H1 H2 H3]. split; rewrite ?Hp, ?Hr, ?Hl; eauto.
Qed.

Lemma wf_boot u : wf (boot u).
Proof. split; simpl; intros *; by rewrite lookup_empty. Qed.

Lemma wf_execute_issue action w : wf w → wf (fst (execute_issue action w)).
Proof.
  intros [H1 H2 H3]. rewrite execute_issue_eq. split; simpl.
  - intros n fut. rewrite lookup_insert. case_decide; [lia|].
    intros Hn. apply H1 in Hn. lia.
  - intros n fut. rewrite length_app, lookup_insert. simpl. case_decide.
    + intros [= <-]. lia.
    + intros Hn. apply H2 in Hn. lia.
  - intros n m fut. rewrite !lookup_insert.
    repeat case_decide; try congruence.
    + intros [= <-] Hm. apply H2 in Hm. lia.
    + intros Hn [= <-]. apply H2 in Hn. lia.
    + eauto.
Qed.

Lemma wf_step o w : wf w → wf (fst (step o w)).
Proof.
  intros Hw. destruct o as [h|action|t f|evs|a]; unfold step; cbn [fst snd].
  - destruct (connect_world h w) as [sock ->].
    eapply wf_same; [..|exact Hw]; done.
  - destruct (execute_send_world action w) as [sock ->].
    eapply wf_same; [..|exact (wf_execute_issue action w Hw)]; done.
  - eapply wf_same; [..|exact Hw]; done.
  - unfold subscribe. destruct (ws_send_world (subscribe_request evs) w) as [sock ->].
    eapply wf_same; [..|exact Hw]; done.
  - destruct (listen_one_client a w) as [sock Hc].
    eapply wf_same; [..|exact Hw]; rewrite ?Hc; try done.
    apply listen_one_length.
Qed.

(** The counter never goes down. *)
Lemma step_counter o w :
  (request_id (client w) ≤ request_id (client (fst (step o w))))%Z.
Proof.
  destruct o as [h|action|t f|evs|a]; unfold step; cbn [fst snd].
  - by destruct (connect_world h w) as [sock ->].
  - destruct (execute_send_world action w) as [sock ->].
    rewrite execute_issue_eq. simpl. lia.
  - done.
  - unfold subscribe.
    by destruct (ws_send_world (subscribe_request evs) w) as [sock ->].
  - destruct (listen_one_client a w) as [sock ->]. done.
Qed.

(** No operation removes or replaces the entry of an id already handed
    out. *)
Lemma step_keeps o w n :
  (n ≤ request_id (client w))%Z →
  pending_requests (client (fst (step o w))) !! n =
  pending_requests (client w) !! n.
Proof.
  intros Hn. destruct o as [h|action|t f|evs|a]; unfold step; cbn [fst snd].
  - by destruct (connect_world h w) as [sock ->].
  - destruct (execute_send_world action w) as [sock ->].
    rewrite execute_issue_eq. simpl. apply lookup_insert_ne. lia.
  - done.
  - unfold subscribe.
    by destruct (ws_send_world (subscribe_request evs) w) as [sock ->].
  - destruct (listen_one_client a w) as [sock ->]. done.
Qed.

Lemma run_counter ops w :
  (request_id (client w) ≤ request_id (client (fst (run ops w))))%Z.
Proof.
  revert w. induction ops as [|o ops IH]; intros w; simpl; [lia|].
  pose proof (step_counter o w). pose proof (IH (fst (step o w))). lia.
Qed.

Lemma run_keeps ops w n :
  (n ≤ request_id (client w))%Z →
  pending_requests (client (fst (run ops w))) !! n =
  pending_requests (client w) !! n.
Proof.
  revert w. induction ops as [|o ops IH]; intros w Hn; simpl; [done|].
  rewrite IH by (pose proof (step_counter o w); lia).
  by apply step_keeps.
Qed.

Lemma wf_run ops w : wf w → wf (fst (run ops w)).
Proof.
  revert w. induction ops as [|o ops IH]; intros w Hw; simpl; [done|].
  by apply IH, wf_step.
Qed.

(** What a step issues: the next id, entered with a new future. *)
Lemma step_issued o w k :
  k ∈ snd (step o w) →
  call_id k = (request_id (client w) + 1)%Z ∧
  call_id k = request_id (client (fst (step o w))) ∧
  call_future k = length (futures w) ∧
  pending_requests (client (fst (step o w))) !! call_id k = Some (call_future k).
Proof.
  destruct o as [h|action|t f|evs|a]; unfold step; cbn [fst snd];
    try by intros ?%elem_of_nil.
  unfold issued. rewrite execute_issue_eq.
  intros ->%list_elem_of_singleton. simpl.
  destruct (execute_send_world action w) as [sock ->].
  rewrite execute_issue_eq. simpl. by rewrite lookup_insert_eq.
Qed.

Lemma step_issues_at_most_one o w :
  snd (step o w) = [] ∨ ∃ k, snd (step o w) = [k].
Proof.
  destruct o; unfold step; cbn [snd]; eauto.
Qed.

(** What one operation does to the counter, and the call it issues: an
    [execute], and no other operation, moves the counter, by one, and
    issues the call of that id with a future of its own. *)
Lemma step_allocates o w :
  match o with
  | Execute _ =>
      request_id (client (fst (step o w))) = (request_id (client w) + 1)%Z ∧
      snd (step o w) = [Call (request_id (client w) + 1) (length (futures w))]
  | _ =>
      request_id (client (fst (step o w))) = request_id (client w) ∧
      snd (step o w) = []
  end.
Proof.
  destruct o as [h|action|t f|evs|a]; unfold step; cbn [fst snd].
  - by destruct (connect_world h w) as [sock ->].
  - destruct (execute_send_world action w) as [sock ->].
    unfold issued. by rewrite execute_issue_eq.
  - done.
  - unfold subscribe.
    by destruct (ws_send_world (subscribe_request evs) w) as [sock ->].
  - by destruct (listen_one_client a w) as [sock ->].
Qed.

(** Along a run there is one call issued for each [execute], the counter
    has moved by their number, and their ids are the next integers in
    the order of the calls. *)
Lemma run_allocates ops w :
  length (snd (run ops w)) = executes ops ∧
  request_id (client (fst (run ops w))) =
    (request_id (client w) + Z.of_nat (executes ops))%Z ∧
  call_id <$> snd (run ops w) =
    (λ i, (request_id (client w) + 1 + Z.of_nat i)%Z) <$> seq 0 (executes ops).
Proof.
  revert w. induction ops as [|o ops IH]; intros w.
  { simpl. split; [done|]. split; [lia|done]. }
  cbn [run fst snd].
  destruct (IH (fst (step o w))) as (Hl & Hc & Hids).
  pose proof (step_allocates o w) as Hs.
  rewrite length_app, fmap_app, Hl, Hc, Hids.
  destruct o as [h|action|t f|evs|a]; destruct Hs as [-> ->];
    cbn [executes length app fmap list_fmap]; try by (split; [done|]; split; [lia|done]).
  split; [done|]. split; [lia|].
  rewrite <- cons_seq, <- fmap_S_seq, fmap_cons, <- list_fmap_compose.
  f_equal; [simpl; lia|].
  apply list_fmap_ext. intros i x _. simpl. lia.
Qed.

(** C2: every call of [execute] takes a new id, the counter plus one,
    whether or not its request can be written.  Along every run of the
    client there is one call issued for each [execute] among the
    operations; their ids are, in the order of the calls, the integers
    that follow the counter the run started from, and the counter has
    moved by exactly their number.  So the ids are strictly increasing
    (and pairwise different), each lies above the counter and above every
    id of the table the run started from, and at the end the table still
    maps each id to the future of its own call.  The bookkeeping
    invariant [wf] holds again after every operation. *)
Theorem execute_ids_strictly_increasing ops w :
  wf w →
  wf (fst (run ops w)) ∧
  StronglySorted Z.lt (call_id <$> snd (run ops w)) ∧
  Forall (λ k,
      (request_id (client w) < call_id k ≤ request_id (client (fst (run ops w))))%Z ∧
      (∀ n fut, pending_requests (client w) !! n = Some fut → (n < call_id k)%Z) ∧
      pending_requests (client (fst (run ops w))) !! call_id k = Some (call_future k))
    (snd (run ops w)) ∧
  length (snd (run ops w)) = executes ops ∧
  request_id (client (fst (run ops w))) =
    (request_id (client w) + Z.of_nat (executes ops))%Z ∧
  call_id <$> snd (run ops w) =
    (λ i, (request_id (client w) + 1 + Z.of_nat i)%Z) <$> seq 0 (executes ops) ∧
  ∀ action,
    request_id (client (fst (execute_send action w))) =
      (request_id (client w) + 1)%Z ∧
    pending_requests (client (fst (execute_send action w)))
      !! (request_id (client w) + 1)%Z = Some (length (futures w)) ∧
    futures (fst (execute_send action w)) !! length (futures w) = Some Pending ∧
    run [Execute action] w =
      (fst (execute_send action w),
       [Call (request_id (client w) + 1) (length (futures w))]).
Proof.
  intros Hw.
  assert (Hmain : wf (fst (run ops w)) ∧
    StronglySorted Z.lt (call_id <$> snd (run ops w)) ∧
    Forall (λ k,
      (request_id (client w) < call_id k ≤ request_id (client (fst (run ops w))))%Z ∧
      (∀ n fut, pending_requests (client w) !! n = Some fut → (n < call_id k)%Z) ∧
      pending_requests (client (fst (run ops w))) !! call_id k = Some (call_future k))
    (snd (run ops w))).
  { revert w Hw. induction ops as [|o ops IH]; intros w Hw.
    { simpl. repeat split; [apply Hw..|constructor|constructor]. }
    cbn [run fst snd].
    pose proof (wf_step o w Hw) as Hw1.
    destruct (IH _ Hw1) as (Hwf & Hsorted & Hall).
    pose proof (step_counter o w) as Hc.
    pose proof (run_counter ops (fst (step o w))) as Hc'.
    assert (Hrest : Forall (λ k,
        (request_id (client w) < call_id k ≤
           request_id (client (fst (run ops (fst (step o w))))))%Z ∧
        (∀ n fut, pending_requests (client w) !! n = Some fut → (n < call_id k)%Z) ∧
        pending_requests (client (fst (run ops (fst (step o w))))) !! call_id k =
          Some (call_future k))
      (snd (run ops (fst (step o w))))).
    { eapply Forall_impl; [exact Hall|]. intros k (Hk & _ & Hp).
      split; [lia|]. split; [|done].
      intros n fut Hn. apply (wf_ids _ Hw) in Hn. lia. }
    split; [done|].
    destruct (step_issues_at_most_one o w) as [E|[k E]].
    { rewrite E. simpl. done. }
    pose proof (step_issued o w k) as Hk. rewrite E in *.
    destruct Hk as (Hk1 & Hk2 & Hk3 & Hk4); [by apply list_elem_of_singleton|].
    simpl. split.
    - constructor; [done|]. apply Forall_fmap.
      eapply Forall_impl; [exact Hall|]. intros k' (Hk' & _). simpl. lia.
    - constructor; [|done]. split; [lia|]. split.
      + intros n fut Hn. apply (wf_ids _ Hw) in Hn. lia.
      + rewrite run_keeps by lia. done. }
  destruct Hmain as (H1 & H2 & H3).
  destruct (run_allocates ops w) as (H4 & H5 & H6).
  do 6 (split; [done|]).
  intros action.
  destruct (step_allocates (Execute action) w) as [Hc Hi].
  unfold step in Hc, Hi. cbn [fst snd] in Hc, Hi.
  split; [done|].
  destruct (execute_send_world action w) as [sock Hs].
  split; [|split].
  - rewrite Hs, execute_issue_eq. simpl. by rewrite lookup_insert_eq.
  - rewrite Hs, execute_issue_eq. simpl.
    by rewrite lookup_app_r, Nat.sub_diag by lia.
  - cbn [run step fst snd]. by rewrite Hi.
Qed.

(** ** Responses and the calls they answer *)

Lemma set_result_pending fut v w :
  futures w !! fut = Some Pending →
  set_result fut v w =
  (World (client w) (<[fut := Finished v]> (futures w)) (tasks w), Ok tt).
Proof. intros H. unfold set_result. by rewrite H. Qed.

Lemma set_result_finished fut v v' w :
  futures w !! fut = Some (Finished v') →
  set_result fut v w = (w, Raise InvalidStateError).
Proof. intros H. unfold set_result. by rewrite H. Qed.

(** The response to an outstanding call finishes the future of that
    call, and nothing else changes. *)
Lemma on_message_resolves k fields w :
  fields !! "id" = Some (JInt (call_id k)) →
  outstanding k w →
  on_message (Encoded (JObj fields)) w =
  (World (client w) (<[call_future k := Finished (JObj fields)]> (futures w))
         (tasks w), Ok tt).
Proof.
  intros Hid [Hp Hf]. rewrite (on_message_response _ _ _ Hid), Hp.
  by apply set_result_pending.
Qed.

Lemma listen_responses rs w :
  wf w →
  Forall (λ r, r.2 !! "id" = Some (JInt (call_id r.1)) ∧ outstanding r.1 w) rs →
  NoDup ((λ r, call_id r.1) <$> rs) →
  ∃ store,
    listen_loop (frames rs) w = (World (client w) store (tasks w), Waiting) ∧
    length store = length (futures w) ∧
    (∀ r, r ∈ rs → store !! call_future r.1 = Some (Finished (JObj r.2))) ∧
    (∀ i, i ∉ (λ r, call_future r.1) <$> rs → store !! i = futures w !! i).
Proof.
  revert w. induction rs as [|[k f] rs IH]; intros w Hw Hall Hnd.
  { exists (futures w). simpl. rewrite world_eta.
    split; [done|]. split; [done|]. split; [|done].
    by intros ? ?%elem_of_nil. }
  apply Forall_cons in Hall as [[Hid Hout] Hall]. simpl in Hid, Hout.
  rewrite fmap_cons in Hnd. apply NoDup_cons in Hnd as [Hfresh Hnd].
  cbn [frames fmap list_fmap listen_loop]. simpl snd.
  rewrite (on_message_resolves _ _ _ Hid Hout).
  set (w1 := World (client w) (<[call_future k := Finished (JObj f)]> (futures w))
                   (tasks w)).
  assert (Hother : ∀ r, r ∈ rs → call_future r.1 ≠ call_future k).
  { intros r Hr Heq. apply Hfresh.
    apply list_elem_of_fmap. exists r. split; [|done].
    rewrite Forall_forall in Hall. destruct (Hall r Hr) as [_ [Hp _]].
    destruct Hout as [Hpk _]. rewrite Heq in Hp.
    symmetry. exact (wf_inj _ Hw _ _ _ Hp Hpk). }
  destruct (IH w1) as (store & Hrun & Hlen & Hdone & Hrest).
  - eapply wf_same; [..|exact Hw]; try done. apply length_insert.
  - rewrite Forall_forall in Hall |- *. intros r Hr.
    destruct (Hall r Hr) as [Hi [Hp Hf]]. split; [done|]. split; [done|].
    simpl. rewrite list_lookup_insert_ne; [done|].
    intros Heq. by apply (Hother r Hr).
  - done.
  - subst w1. cbn [client futures tasks] in Hrun, Hlen, Hrest.
    exists store. fold (frames rs). rewrite Hrun.
    split; [done|]. split; [by rewrite Hlen, length_insert|]. split.
    + intros r [->|Hr]%elem_of_cons; [|by apply Hdone]. simpl.
      rewrite Hrest.
      * simpl. apply list_lookup_insert_eq.
        destruct Hout as [_ Hf]. by apply lookup_lt_Some in Hf.
      * intros (r & Heq & Hr)%list_elem_of_fmap. by apply (Hother r Hr).
    + intros i Hi. apply not_elem_of_cons in Hi as [Hne Hi]. simpl in Hne.
      rewrite (Hrest i Hi). simpl. by apply list_lookup_insert_ne.
Qed.

Lemma _listen_connected stream w :
  is_Some (ws (client w)) → _listen stream w = listen_loop stream w.
Proof. intros [conn H]. unfold _listen. by rewrite H. Qed.

(** C1: let any number of calls be outstanding and let one response per
    call arrive, in whatever order.  The listener takes them all and
    goes on waiting; the response whose ["id"] is [n] finishes the
    future of the call issued with id [n], which is what that call's
    [execute] resumes with; no other future is written; and the outcome
    is the same for every order of arrival. *)
Theorem responses_reach_their_calls rs w :
  wf w →
  is_Some (ws (client w)) →
  Forall (λ r, r.2 !! "id" = Some (JInt (call_id r.1)) ∧ outstanding r.1 w) rs →
  NoDup ((λ r, call_id r.1) <$> rs) →
  snd (_listen (frames rs) w) = Waiting ∧
  (∀ r, r ∈ rs →
     futures (fst (_listen (frames rs) w)) !! call_future r.1 =
       Some (Finished (JObj r.2)) ∧
     execute_outcome r.1 (fst (_listen (frames rs) w)) =
       Some (execute_finish (JObj r.2))) ∧
  (∀ i, i ∉ (λ r, call_future r.1) <$> rs →
     futures (fst (_listen (frames rs) w)) !! i = futures w !! i) ∧
  (∀ rs', rs' ≡ₚ rs → _listen (frames rs') w = _listen (frames rs) w).
Proof.
  intros Hw Hws Hall Hnd.
  destruct (listen_responses rs w Hw Hall Hnd) as (store & Hrun & Hlen & Hdone & Hrest).
  rewrite !_listen_connected, Hrun by done. cbn [fst snd futures].
  split; [done|]. split; [|split; [done|]].
  - intros r Hr. split; [by apply Hdone|].
    unfold execute_outcome. cbn [futures]. by rewrite (Hdone r Hr).
  - intros rs' Hperm. rewrite _listen_connected by done.
    destruct (listen_responses rs' w Hw) as (store' & Hrun' & Hlen' & Hdone' & Hrest').
    { by rewrite Hperm. }
    { by rewrite Hperm. }
    rewrite Hrun'. do 2 f_equal. apply list_eq. intros i.
    destruct (decide (i ∈ (λ r, call_future r.1) <$> rs)) as [Hi|Hi].
    + apply list_elem_of_fmap in Hi as (r & -> & Hr).
      rewrite (Hdone r Hr). apply Hdone'. by rewrite Hperm.
    + rewrite (Hrest i Hi). apply Hrest'. by rewrite Hperm.
Qed.

(** ** The end of the connection *)

Lemma listen_loop_app pre post w :
  listen_loop (pre ++ post) w =
  match listen_loop pre w with
  | (w1, Waiting) => listen_loop post w1
  | ended => ended
  end.
Proof.
  revert w. induction pre as [|[msg| |] pre IH]; intros w; simpl; try done.
  destruct (on_message msg w) as [w' [[]|e]]; [apply IH|done].
Qed.

(** The listener writes futures only: the table stays as it is. *)
Lemma listen_loop_table stream w :
  pending_requests (client (fst (listen_loop stream w))) =
  pending_requests (client w).
Proof.
  revert w. induction stream as [|[msg| |] stream IH]; intros w; simpl; try done.
  pose proof (on_message_client msg w) as Hc.
  destruct (on_message msg w) as [w' [[]|e]]; simpl in *.
  - by rewrite IH, Hc.
  - by rewrite Hc.
Qed.



(** ** Frames without a waiting call, and frames that are not routed *)

(** A response whose id is not in the table is let go: nothing changes
    and the loop goes on. *)
Lemma on_message_unknown_id fields n w :
  fields !! "id" = Some (JInt n) →
  pending_requests (client w) !! n = None →
  on_message (Encoded (JObj fields)) w = (w, Ok tt).
Proof. intros Hid Hn. by rewrite (on_message_response _ _ _ Hid), Hn. Qed.

(** A future is written at most once: a response for a call that was
    answered before changes nothing, and raises. *)
Lemma on_message_answered_before fields n fut v w :
  fields !! "id" = Some (JInt n) →
  pending_requests (client w) !! n = Some fut →
  futures w !! fut = Some (Finished v) →
  on_message (Encoded (JObj fields)) w = (w, Raise InvalidStateError).
Proof.
  intros Hid Hn Hf. rewrite (on_message_response _ _ _ Hid), Hn.
  by eapply set_result_finished.
Qed.

(** C4, on the code: a second response for call 1 is not let go.  The
    entry of call 1 is still in the table, [set_result] raises on its
    finished future, and [_listen] ends with [InvalidStateError]: the
    response for call 2 right behind it is never read, and call 2 stays
    suspended.  (The first answer of call 1 is kept.) *)
Theorem duplicate_response_ends_listener :
  outstanding (Call 1 0) (after_calls 2) ∧
  outstanding (Call 2 1) (after_calls 2) ∧
  snd (_listen duplicate_stream (after_calls 2)) = Died InvalidStateError ∧
  futures (fst (_listen duplicate_stream (after_calls 2))) =
    [Finished (JObj (reply 1)); Pending] ∧
  execute_outcome (Call 2 1) (fst (_listen duplicate_stream (after_calls 2))) = None.
Proof. repeat split; by vm_compute. Qed.



(** ** Error responses *)

Lemma execute_finish_error fields err :
  fields !! "error" = Some err →
  execute_finish (JObj fields) = Raise (Exception err).
Proof. intros H. unfold execute_finish. simpl. by rewrite H. Qed.

(** C6: when the response that answers an outstanding call has an
    ["error"] member, the call's [execute] raises an exception that
    carries that member, the remote code and message, as it came; it
    returns no value. *)
Theorem error_response_raises k fields err w :
  is_Some (ws (client w)) →
  outstanding k w →
  fields !! "id" = Some (JInt (call_id k)) →
  fields !! "error" = Some err →
  execute_outcome k (fst (_listen [Frame (Encoded (JObj fields))] w)) =
    Some (Raise (Exception err)) ∧
  ∀ v, execute_outcome k (fst (_listen [Frame (Encoded (JObj fields))] w))
       ≠ Some (Ok v).
Proof.
  intros Hws Hout Hid Herr.
  assert (H : execute_outcome k (fst (_listen [Frame (Encoded (JObj fields))] w)) =
              Some (Raise (Exception err))).
  { rewrite _listen_connected by done. simpl.
    rewrite (on_message_resolves _ _ _ Hid Hout). simpl.
    unfold execute_outcome. simpl.
    rewrite list_lookup_insert_eq
      by (destruct Hout as [_ Hf]; by apply lookup_lt_Some in Hf).
    by rewrite (execute_finish_error _ _ Herr). }
  split; [done|]. intros v. by rewrite H.
Qed.

(** ** Event handlers *)

(** The handlers registered for a type, oldest first. *)
Lemma on_event_registered t f w :
  event_handlers (client (on_event t f w)) !! t =
  Some (default [] (event_handlers (client w) !! t) ++ [f]).
Proof.
  unfold on_event. simpl. rewrite lookup_alter_eq.
  destruct (event_handlers (client w) !! t) as [hs|] eqn:E.
  - rewrite decide_True by eauto. by rewrite E.
  - rewrite decide_False by (by intros [? ?]). by rewrite lookup_insert_eq.
Qed.

Lemma on_event_frame t f w :
  futures (on_event t f w) = futures w ∧ tasks (on_event t f w) = tasks w.
Proof. done. Qed.

Lemma register_all t hs w :
  let w1 := foldl (λ w h, on_event t h w) w hs in
  default [] (event_handlers (client w1) !! t) =
    default [] (event_handlers (client w) !! t) ++ hs ∧
  futures w1 = futures w ∧ tasks w1 = tasks w.
Proof.
  revert w. induction hs as [|h hs IH]; intros w; simpl.
  { by rewrite app_nil_r. }
  destruct (IH (on_event t h w)) as (H1 & H2 & H3).
  rewrite H1, H2, H3, on_event_registered. simpl.
  by rewrite <- app_assoc.
Qed.

Lemma on_message_dispatch fields ev t w :
  fields !! "id" = None →
  fields !! "event" = Some (JObj ev) →
  ev !! "type" = Some (JStr t) →
  on_message (Encoded (JObj fields)) w =
  (World (client w) (futures w)
     (tasks w ++ ((λ h, Task h (JObj ev)) <$>
                    default [] (event_handlers (client w) !! t))),
   Ok tt).
Proof.
  intros Hid Hev Hty. rewrite (on_message_event _ _ _ _ Hid Hev Hty).
  destruct (event_handlers (client w) !! t); simpl; [done|].
  by rewrite app_nil_r, world_eta.
Qed.

(** C7: register [hs] for a type, one after the other, on top of the
    handlers the type already has, and let one event of that type
    arrive.  The listener makes one task per handler, in the order of
    registration, behind the tasks already queued, and goes on with the
    next frame without running any handler body itself; the event loop
    then runs every one of these tasks, in that order, each ending the
    way its own body ends, whether or not another one raised. *)
Theorem handlers_run_in_registration_order t hs fields ev rest w :
  fields !! "id" = None →
  fields !! "event" = Some (JObj ev) →
  ev !! "type" = Some (JStr t) →
  let w1 := foldl (λ w h, on_event t h w) w hs in
  let handlers := default [] (event_handlers (client w) !! t) ++ hs in
  let spawned := (λ h, Task h (JObj ev)) <$> handlers in
  let w2 := World (client w1) (futures w) (tasks w ++ spawned) in
  on_message (Encoded (JObj fields)) w1 = (w2, Ok tt) ∧
  listen_loop (Frame (Encoded (JObj fields)) :: rest) w1 = listen_loop rest w2 ∧
  run_ready spawned = (λ h, (h, handler_body h (JObj ev))) <$> handlers.
Proof.
  intros Hid Hev Hty w1 handlers spawned w2.
  destruct (register_all t hs w) as (H1 & H2 & H3). fold w1 in H1, H2, H3.
  assert (Hm : on_message (Encoded (JObj fields)) w1 = (w2, Ok tt)).
  { rewrite (on_message_dispatch _ _ _ _ Hid Hev Hty).
    subst w2 spawned handlers. by rewrite H1, H2, H3. }
  split; [done|]. split.
  - simpl. by rewrite Hm.
  - subst spawned. unfold run_ready. rewrite <- list_fmap_compose.
    by apply list_fmap_ext.
Qed.

(** C8: an event whose type has no handler changes nothing: no task is
    made, nothing is raised, and the listener goes on with the next
    frame. *)
Theorem event_without_handlers_is_noop fields ev t rest w :
  fields !! "id" = None →
  fields !! "event" = Some (JObj ev) →
  ev !! "type" = Some (JStr t) →
  default [] (event_handlers (client w) !! t) = [] →
  on_message (Encoded (JObj fields)) w = (w, Ok tt) ∧
  listen_loop (Frame (Encoded (JObj fields)) :: rest) w = listen_loop rest w.
Proof.
  intros Hid Hev Hty Hnone.
  assert (Hm : on_message (Encoded (JObj fields)) w = (w, Ok tt)).
  { rewrite (on_message_dispatch _ _ _ _ Hid Hev Hty), Hnone. simpl.
    by rewrite app_nil_r, world_eta. }
  split; [done|]. simpl. by rewrite Hm.
Qed.

(** ** The frames that are sent *)

Lemma ws_send_open frame conn w :
  ws (client w) = Some conn → is_open conn = true →
  ws_send frame w =
  (with_client (set_ws (Some (Connection true (outbox conn ++ [frame])))) w, Ok tt).
Proof. intros Hws Hopen. unfold ws_send. by rewrite Hws, Hopen. Qed.

(** C9: the request of [subscribe] has no ["id"] member, and sending it
    leaves the counter, the table and the store of futures as they were,
    so nothing waits for an answer; on an open socket it is the one
    frame written.  The request of [execute] has the string ["method"],
    the object ["params"] holding the action, and the integer ["id"] of
    the call; on an open socket it is the one frame written, and the
    call is then outstanding under that id. *)
Theorem subscribe_has_no_id_execute_has events action w :
  (∃ m, subscribe_request events = JObj m ∧
        m !! "id" = None ∧
        m !! "method" = Some (JStr "subscribe") ∧
        m !! "params" = Some (JObj {["events" := JArr (JStr <$> events)]})) ∧
  request_id (client (fst (subscribe events w))) = request_id (client w) ∧
  pending_requests (client (fst (subscribe events w))) = pending_requests (client w) ∧
  futures (fst (subscribe events w)) = futures w ∧
  (∀ id, ∃ m, execute_request action id = JObj m ∧
        m !! "method" = Some (JStr "execute") ∧
        m !! "params" = Some (JObj {["action" := action]}) ∧
        m !! "id" = Some (JInt id)) ∧
  (∀ conn, ws (client w) = Some conn → is_open conn = true →
     subscribe events w =
       (with_client (set_ws (Some (Connection true
                       (outbox conn ++ [subscribe_request events])))) w, Ok tt) ∧
     ∃ k w',
       execute_send action w = (w', Ok k) ∧
       ws (client w') =
         Some (Connection true (outbox conn ++ [execute_request action (call_id k)])) ∧
       outstanding k w').
Proof.
  split; [|split; [|split; [|split; [|split]]]].
  - eexists. split; [reflexivity|]. by repeat split.
  - unfold subscribe. by destruct (ws_send_world (subscribe_request events) w) as [? ->].
  - unfold subscribe. by destruct (ws_send_world (subscribe_request events) w) as [? ->].
  - unfold subscribe. by destruct (ws_send_world (subscribe_request events) w) as [? ->].
  - intros id. eexists. split; [reflexivity|]. by repeat split.
  - intros conn Hws Hopen. split.
    + by apply ws_send_open.
    + unfold execute_send, bind. rewrite execute_issue_eq. cbn [fst snd].
      erewrite ws_send_open by (simpl; eauto). cbn [ret].
      eexists _, _. split; [reflexivity|]. split; [reflexivity|].
      split; simpl.
      * apply lookup_insert_eq.
      * by rewrite lookup_app_r, Nat.sub_diag.
Qed.

(** ** A send that fails *)

(** C10: [execute] takes the next id and enters a pending future under
    it before it sends.  Without a socket the send raises
    [AttributeError]; and whenever the send raises, the counter stays
    advanced, the entry and its future stay, nothing has been written to
    the socket, and no later operation of the client removes or replaces
    that entry, nor takes the counter back. *)
Theorem failed_send_is_not_rolled_back action w :
  (ws (client w) = None → snd (execute_send action w) = Raise AttributeError) ∧
  (∀ e, snd (execute_send action w) = Raise e →
     let w' := fst (execute_send action w) in
     let n := (request_id (client w) + 1)%Z in
     let fut := length (futures w) in
     request_id (client w') = n ∧
     pending_requests (client w') !! n = Some fut ∧
     futures w' !! fut = Some Pending ∧
     ws (client w') = ws (client w) ∧
     ∀ ops,
       pending_requests (client (fst (run ops w'))) !! n = Some fut ∧
       (n ≤ request_id (client (fst (run ops w'))))%Z).
Proof.
  split.
  - intros Hws. unfold execute_send, bind. rewrite execute_issue_eq.
    cbn [fst snd]. unfold ws_send. simpl. by rewrite Hws.
  - intros e He w' n fut.
    assert (Hw' : w' = fst (execute_issue action w)).
    { subst w'. revert He. unfold execute_send, bind.
      rewrite execute_issue_eq. cbn [fst snd]. unfold ws_send. simpl.
      destruct (ws (client w)) as [conn|]; [|done].
      by destruct (is_open conn). }
    rewrite Hw', execute_issue_eq. cbn [fst client request_id
      pending_requests futures ws].
    assert (Hentry :
      <[n := fut]> (pending_requests (client w)) !! n = Some fut)
      by apply lookup_insert_eq.
    split; [done|]. split; [done|].
    split; [by rewrite lookup_app_r, Nat.sub_diag|].
    split; [done|]. intros ops. split.
    + rewrite run_keeps; [done|]. simpl. lia.
    + etrans; [|apply run_counter]. simpl. lia.
Qed.

(** * The theorems at work on the sample clients *)

Lemma wf_after_calls n : wf (after_calls n).
Proof. apply wf_run, wf_boot. Defined.

Lemma responses_reach_their_calls_sample :
  (wf (after_calls 2) ∧
   is_Some (ws (client (after_calls 2))) ∧
   Forall (λ r, r.2 !! "id" = Some (JInt (call_id r.1)) ∧
                outstanding r.1 (after_calls 2)) swapped_replies ∧
   NoDup ((λ r, call_id r.1) <$> swapped_replies)) ∧
  snd (_listen (frames swapped_replies) (after_calls 2)) = Waiting ∧
  (∀ r, r ∈ swapped_replies →
     futures (fst (_listen (frames swapped_replies) (after_calls 2)))
       !! call_future r.1 = Some (Finished (JObj r.2)) ∧
     execute_outcome r.1 (fst (_listen (frames swapped_replies) (after_calls 2))) =
       Some (execute_finish (JObj r.2))) ∧
  (∀ i, i ∉ (λ r, call_future r.1) <$> swapped_replies →
     futures (fst (_listen (frames swapped_replies) (after_calls 2))) !! i =
     futures (after_calls 2) !! i) ∧
  (∀ rs', rs' ≡ₚ swapped_replies →
     _listen (frames rs') (after_calls 2) =
     _listen (frames swapped_replies) (after_calls 2)).
Proof.
  assert (H1 : is_Some (ws (client (after_calls 2)))).
  { eexists. vm_compute. reflexivity. }
  assert (H2 : Forall (λ r, r.2 !! "id" = Some (JInt (call_id r.1)) ∧
                            outstanding r.1 (after_calls 2)) swapped_replies).
  { repeat constructor; vm_compute; reflexivity. }
  assert (H3 : NoDup ((λ r, call_id r.1) <$> swapped_replies)).
  { apply (bool_decide_unpack _). vm_compute. exact I. }
  split; [by repeat split; try apply wf_after_calls|].
  exact (responses_reach_their_calls swapped_replies (after_calls 2)
           (wf_after_calls 2) H1 H2 H3).
Defined.

Lemma execute_ids_strictly_increasing_sample :
  wf (boot sample_url) ∧
  wf (fst (run sample_session (boot sample_url))) ∧
  StronglySorted Z.lt (call_id <$> snd (run sample_session (boot sample_url))) ∧
  Forall (λ k,
      (request_id (client (boot sample_url)) < call_id k ≤
         request_id (client (fst (run sample_session (boot sample_url)))))%Z ∧
      (∀ n fut, pending_requests (client (boot sample_url)) !! n = Some fut →
                (n < call_id k)%Z) ∧
      pending_requests (client (fst (run sample_session (boot sample_url))))
        !! call_id k = Some (call_future k))
    (snd (run sample_session (boot sample_url))) ∧
  length (snd (run sample_session (boot sample_url))) = executes sample_session ∧
  request_id (client (fst (run sample_session (boot sample_url)))) =
    (request_id (client (boot sample_url)) + Z.of_nat (executes sample_session))%Z ∧
  call_id <$> snd (run sample_session (boot sample_url)) =
    (λ i, (request_id (client (boot sample_url)) + 1 + Z.of_nat i)%Z)
      <$> seq 0 (executes sample_session) ∧
  ∀ action,
    request_id (client (fst (execute_send action (boot sample_url)))) =
      (request_id (client (boot sample_url)) + 1)%Z ∧
    pending_requests (client (fst (execute_send action (boot sample_url))))
      !! (request_id (client (boot sample_url)) + 1)%Z =
      Some (length (futures (boot sample_url))) ∧
    futures (fst (execute_send action (boot sample_url)))
      !! length (futures (boot sample_url)) = Some Pending ∧
    run [Execute action] (boot sample_url) =
      (fst (execute_send action (boot sample_url)),
       [Call (request_id (client (boot sample_url)) + 1)
             (length (futures (boot sample_url)))]).
Proof.
  split; [apply wf_boot|].
  exact (execute_ids_strictly_increasing sample_session (boot sample_url)
           (wf_boot sample_url)).
Defined.



Lemma error_response_raises_sample :
  (is_Some (ws (client (after_calls 2))) ∧
   outstanding (Call 1 0) (after_calls 2) ∧
   error_reply 1 !! "id" = Some (JInt 1) ∧
   error_reply 1 !! "error" = Some sample_error) ∧
  execute_outcome (Call 1 0)
    (fst (_listen [Frame (Encoded (JObj (error_reply 1)))] (after_calls 2))) =
    Some (Raise (Exception sample_error)) ∧
  ∀ v, execute_outcome (Call 1 0)
         (fst (_listen [Frame (Encoded (JObj (error_reply 1)))] (after_calls 2)))
       ≠ Some (Ok v).
Proof.
  assert (H1 : is_Some (ws (client (after_calls 2)))).
  { eexists. vm_compute. reflexivity. }
  assert (H2 : outstanding (Call 1 0) (after_calls 2)).
  { split; vm_compute; reflexivity. }
  assert (H3 : error_reply 1 !! "id" = Some (JInt 1)) by (vm_compute; reflexivity).
  assert (H4 : error_reply 1 !! "error" = Some sample_error)
    by (vm_compute; reflexivity).
  split; [by repeat split|].
  exact (error_response_raises (Call 1 0) (error_reply 1) sample_error
           (after_calls 2) H1 H2 H3 H4).
Defined.

Lemma handlers_run_in_registration_order_sample :
  (sample_event_frame !! "id" = None ∧
   sample_event_frame !! "event" = Some (JObj sample_event) ∧
   sample_event !! "type" = Some (JStr "pane_output")) ∧
  on_message (Encoded (JObj sample_event_frame)) three_registered =
    (World (client three_registered) (futures (after_calls 0))
           (tasks (after_calls 0) ++ three_spawned), Ok tt) ∧
  listen_loop [Frame (Encoded (JObj sample_event_frame))] three_registered =
    (World (client three_registered) (futures (after_calls 0))
           (tasks (after_calls 0) ++ three_spawned), Waiting) ∧
  run_ready three_spawned =
    [(quiet_handler, None);
     (failing_handler, Some (KeyError "data"));
     (last_handler, None)].
Proof.
  assert (H1 : sample_event_frame !! "id" = None) by (vm_compute; reflexivity).
  assert (H2 : sample_event_frame !! "event" = Some (JObj sample_event))
    by (vm_compute; reflexivity).
  assert (H3 : sample_event !! "type" = Some (JStr "pane_output"))
    by (vm_compute; reflexivity).
  split; [by repeat split|].
  exact (handlers_run_in_registration_order "pane_output"
           [quiet_handler; failing_handler; last_handler]
           sample_event_frame sample_event [] (after_calls 0) H1 H2 H3).
Defined.

Lemma event_without_handlers_is_noop_sample :
  (sample_event_frame !! "id" = None ∧
   sample_event_frame !! "event" = Some (JObj sample_event) ∧
   sample_event !! "type" = Some (JStr "pane_output") ∧
   default [] (event_handlers (client (after_calls 1)) !! "pane_output") = []) ∧
  on_message (Encoded (JObj sample_event_frame)) (after_calls 1) =
    (after_calls 1, Ok tt) ∧
  listen_loop (Frame (Encoded (JObj sample_event_frame)) :: frames [(Call 1 0, reply 1)])
              (after_calls 1) =
    listen_loop (frames [(Call 1 0, reply 1)]) (after_calls 1).
Proof.
  assert (H1 : sample_event_frame !! "id" = None) by (vm_compute; reflexivity).
  assert (H2 : sample_event_frame !! "event" = Some (JObj sample_event))
    by (vm_compute; reflexivity).
  assert (H3 : sample_event !! "type" = Some (JStr "pane_output"))
    by (vm_compute; reflexivity).
  assert (H4 : default [] (event_handlers (client (after_calls 1)) !! "pane_output")
               = []) by (vm_compute; reflexivity).
  split; [by repeat split|].
  exact (event_without_handlers_is_noop sample_event_frame sample_event
           "pane_output" (frames [(Call 1 0, reply 1)]) (after_calls 1)
           H1 H2 H3 H4).
Defined.

Lemma subscribe_has_no_id_execute_has_sample :
  (ws (client (after_calls 1)) = Some socket_after_one_call ∧
   is_open socket_after_one_call = true) ∧
  subscribe ["pane_output"] (after_calls 1) =
    (with_client (set_ws (Some (Connection true
        (outbox socket_after_one_call ++ [subscribe_request ["pane_output"]]))))
       (after_calls 1), Ok tt) ∧
  ∃ k w',
    execute_send sample_action (after_calls 1) = (w', Ok k) ∧
    ws (client w') =
      Some (Connection true
        (outbox socket_after_one_call ++ [execute_request sample_action (call_id k)])) ∧
    outstanding k w'.
Proof.
  assert (H1 : ws (client (after_calls 1)) = Some socket_after_one_call)
    by (vm_compute; reflexivity).
  assert (H2 : is_open socket_after_one_call = true) by reflexivity.
  split; [by split|].
  exact (proj2 (proj2 (proj2 (proj2 (proj2
           (subscribe_has_no_id_execute_has ["pane_output"] sample_action
              (after_calls 1))))))
           socket_after_one_call H1 H2).
Defined.

Lemma failed_send_is_not_rolled_back_sample :
  (ws (client (boot sample_url)) = None ∧
   snd (execute_send sample_action (boot sample_url)) = Raise AttributeError) ∧
  request_id (client (fst (execute_send sample_action (boot sample_url)))) = 1%Z ∧
  pending_requests (client (fst (execute_send sample_action (boot sample_url))))
    !! 1%Z = Some 0 ∧
  futures (fst (execute_send sample_action (boot sample_url))) !! 0 = Some Pending ∧
  ws (client (fst (execute_send sample_action (boot sample_url)))) = None ∧
  ∀ ops,
    pending_requests
      (client (fst (run ops (fst (execute_send sample_action (boot sample_url))))))
      !! 1%Z = Some 0 ∧
    (1 ≤ request_id
           (client (fst (run ops (fst (execute_send sample_action (boot sample_url)))))))%Z.
Proof.
  assert (H1 : ws (client (boot sample_url)) = None) by reflexivity.
  pose proof (failed_send_is_not_rolled_back sample_action (boot sample_url))
    as [Hraise Hkeep].
  split; [split; [exact H1|exact (Hraise H1)]|].
  exact (Hkeep AttributeError (Hraise H1)).
Defined.

(** * Further properties of the client *)

(** ** Frames of unexpected shape *)

Lemma contains_array_absent k xs :
  JStr k ∉ xs → Py.contains k (JArr xs) = Ok false.
Proof.
  intros Hk. simpl. f_equal. induction xs as [|x xs IH]; [done|].
  apply not_elem_of_cons in Hk as [Hx Hk]. simpl. rewrite (IH Hk).
  destruct x; try done. rewrite bool_decide_eq_false_2; [done|].
  intros ->. by apply Hx.
Qed.

Lemma listen_loop_skip msg rest w :
  on_message msg w = (w, Ok tt) →
  listen_loop (Frame msg :: rest) w = listen_loop rest w.
Proof. intros H. simpl. by rewrite H. Qed.

Lemma listen_loop_die msg e rest w :
  on_message msg w = (w, Raise e) →
  listen_loop (Frame msg :: rest) w = (w, Died e).
Proof. intros H. simpl. by rewrite H. Qed.

(** X1: a frame that decodes to something other than a JSON object
    never changes the state.  It is either skipped, the listener going
    on with the next frame, or it ends the listener with [TypeError];
    [null], a boolean or a number always ends it, and a list that has
    neither the string ["id"] nor the string ["event"] among its
    elements is always skipped. *)
Theorem non_object_frame_skipped_or_fatal data rest w :
  (∀ fields, data ≠ JObj fields) →
  ((on_message (Encoded data) w = (w, Ok tt) ∧
    listen_loop (Frame (Encoded data) :: rest) w = listen_loop rest w) ∨
   (on_message (Encoded data) w = (w, Raise TypeError) ∧
    listen_loop (Frame (Encoded data) :: rest) w = (w, Died TypeError))) ∧
  (match data with
   | JNull | JBool _ | JInt _ | JFloat _ =>
       listen_loop (Frame (Encoded data) :: rest) w = (w, Died TypeError)
   | JArr xs =>
       JStr "id" ∉ xs → JStr "event" ∉ xs →
       listen_loop (Frame (Encoded data) :: rest) w = listen_loop rest w
   | _ => True
   end).
Proof.
  intros Hobj.
  assert (Hcases : on_message (Encoded data) w = (w, Ok tt) ∨
                   on_message (Encoded data) w = (w, Raise TypeError)).
  { unfold on_message, bind, lift, self. simpl.
    destruct data as [| | | |s|xs|fields]; simpl; eauto.
    - destruct (String.index 0 "id" s); simpl; eauto.
      destruct (String.index 0 "event" s); simpl; eauto.
    - destruct (existsb _ xs); simpl; eauto.
      destruct (existsb _ xs); simpl; eauto.
    - by destruct (Hobj fields). }
  split.
  - destruct Hcases as [H|H]; [left|right]; (split; [done|]).
    + by apply listen_loop_skip.
    + by apply listen_loop_die.
  - destruct data as [| | | |s|xs|fields]; try done.
    intros Hid Hev. apply listen_loop_skip.
    unfold on_message, bind, lift. cbn [json_loads].
    by rewrite (contains_array_absent _ _ Hid), (contains_array_absent _ _ Hev).
Qed.

(** How a frame with an ["id"] member is handled, whatever the id is. *)
Lemma on_message_with_id fields v w :
  fields !! "id" = Some v →
  on_message (Encoded (JObj fields)) w =
    match Py.lookup_int (pending_requests (client w)) v with
    | Ok (Some fut) => set_result fut (JObj fields) w
    | Ok None => (w, Ok tt)
    | Raise e => (w, Raise e)
    end.
Proof.
  intros Hid. unfold on_message, bind, lift, self. simpl.
  rewrite Hid. simpl.
  by destruct (Py.lookup_int (pending_requests (client w)) v) as [[fut|]|e].
Qed.

(** X2: a frame with an ["id"] member is taken for a response and
    nothing else: whether or not it also has an ["event"] member, no
    handler task is made of it and no field of the client changes. *)
Theorem frame_with_id_is_never_dispatched fields v w :
  fields !! "id" = Some v →
  tasks (fst (on_message (Encoded (JObj fields)) w)) = tasks w ∧
  client (fst (on_message (Encoded (JObj fields)) w)) = client w.
Proof.
  intros Hid. split; [|apply on_message_client].
  rewrite (on_message_with_id _ _ _ Hid).
  destruct (Py.lookup_int _ v) as [[fut|]|e]; try done.
  unfold set_result. by destruct (futures w !! fut) as [[]|].
Qed.

(** X3: an id that is no number matches no call.  When it is [null] or
    a string the frame is skipped without a trace; when it is a list or
    an object the table lookup raises [TypeError] (unhashable), which
    ends the listener.  The state is unchanged in both cases. *)
Theorem non_numeric_id_skipped_or_fatal fields v rest w :
  fields !! "id" = Some v →
  (v = JNull ∨ (∃ s, v = JStr s) →
   listen_loop (Frame (Encoded (JObj fields)) :: rest) w = listen_loop rest w) ∧
  ((∃ xs, v = JArr xs) ∨ (∃ m, v = JObj m) →
   listen_loop (Frame (Encoded (JObj fields)) :: rest) w = (w, Died TypeError)).
Proof.
  intros Hid. pose proof (on_message_with_id _ _ w Hid) as Hm. split.
  - intros Hv. apply listen_loop_skip. rewrite Hm.
    by destruct Hv as [->|[s ->]].
  - intros Hv. apply listen_loop_die. rewrite Hm.
    by destruct Hv as [[xs ->]|[m ->]].
Qed.

(** X4: the id of a response is matched the way Python compares dict
    keys, not by its JSON type: the boolean [true] and the float [1.0]
    both answer the call issued with id 1, as every value equal to the
    integer [n] answers call [n]. *)
Theorem id_matched_by_python_equality k fields v w :
  fields !! "id" = Some v →
  Py.int_key v = Ok (Some (call_id k)) →
  outstanding k w →
  on_message (Encoded (JObj fields)) w =
    (World (client w) (<[call_future k := Finished (JObj fields)]> (futures w))
           (tasks w), Ok tt) ∧
  Py.int_key (JBool true) = Ok (Some 1%Z) ∧
  Py.int_key (JFloat (S754_finite false 1 0)) = Ok (Some 1%Z).
Proof.
  intros Hid Hkey [Hp Hf]. split; [|done].
  rewrite (on_message_with_id _ _ _ Hid). unfold Py.lookup_int.
  rewrite Hkey, Hp. by apply set_result_pending.
Qed.

(** X5: an event that cannot be routed ends the listener.  With no
    ["id"] member in the frame: an ["event"] member that is not an
    object raises [TypeError], one without ["type"] raises [KeyError],
    and a ["type"] that is a list or an object raises [TypeError]
    (unhashable).  The state is unchanged, and the frames behind are
    never read. *)
Theorem malformed_event_ends_listener fields event rest w :
  fields !! "id" = None →
  fields !! "event" = Some event →
  ((∀ ev, event ≠ JObj ev) →
   listen_loop (Frame (Encoded (JObj fields)) :: rest) w = (w, Died TypeError)) ∧
  (∀ ev, event = JObj ev → ev !! "type" = None →
   listen_loop (Frame (Encoded (JObj fields)) :: rest) w = (w, Died (KeyError "type"))) ∧
  (∀ ev ty, event = JObj ev → ev !! "type" = Some ty →
   (∃ xs, ty = JArr xs) ∨ (∃ m, ty = JObj m) →
   listen_loop (Frame (Encoded (JObj fields)) :: rest) w = (w, Died TypeError)).
Proof.
  intros Hid Hev.
  assert (Hm : on_message (Encoded (JObj fields)) w =
    match Py.getitem event "type" with
    | Ok ty =>
        match Py.lookup_str (event_handlers (client w)) ty with
        | Ok (Some hs) => for_each hs (λ h, create_task h event) w
        | Ok None => (w, Ok tt)
        | Raise e => (w, Raise e)
        end
    | Raise e => (w, Raise e)
    end).
  { unfold on_message, bind, lift, self. simpl. rewrite Hid, Hev. simpl.
    destruct (Py.getitem event "type") as [ty|e]; simpl; [|done].
    by destruct (Py.lookup_str _ ty) as [[hs|]|e]. }
  split; [|split].
  - intros Hno. apply listen_loop_die. rewrite Hm.
    destruct event; try done. by destruct (Hno fields0).
  - intros ev -> Hty. apply listen_loop_die. rewrite Hm. simpl. by rewrite Hty.
  - intros ev ty -> Hty Hbad. apply listen_loop_die. rewrite Hm. simpl.
    rewrite Hty. by destruct Hbad as [[xs ->]|[m ->]].
Qed.

(** ** What a call returns *)

(** X6: a response without an ["error"] member makes the call return
    the ["result"] member of the frame, and [None] when the frame has no
    such member; it never raises. *)
Theorem success_response_returns_result k fields w :
  is_Some (ws (client w)) →
  outstanding k w →
  fields !! "id" = Some (JInt (call_id k)) →
  fields !! "error" = None →
  execute_outcome k (fst (_listen [Frame (Encoded (JObj fields))] w)) =
    Some (Ok (default JNull (fields !! "result"))).
Proof.
  intros Hws Hout Hid Herr. rewrite _listen_connected by done. simpl.
  rewrite (on_message_resolves _ _ _ Hid Hout). simpl.
  unfold execute_outcome. simpl.
  rewrite list_lookup_insert_eq
    by (destruct Hout as [_ Hf]; by apply lookup_lt_Some in Hf).
  unfold execute_finish. simpl. by rewrite Herr.
Qed.

(** ** Futures are written once *)

(** One frame changes at most one future, from pending to finished. *)
Lemma on_message_store msg w :
  futures (fst (on_message msg w)) = futures w ∨
  ∃ fut v, futures w !! fut = Some Pending ∧
           futures (fst (on_message msg w)) = <[fut := Finished v]> (futures w).
Proof.
  unfold on_message, bind, lift, self. destruct msg as [raw|data]; simpl; [by left|].
  destruct (Py.contains "id" data) as [[]|]; simpl; try by left.
  - destruct (Py.getitem data "id"); simpl; try by left.
    destruct (Py.lookup_int _ _) as [[fut|]|]; simpl; try by left.
    unfold set_result. destruct (futures w !! fut) as [[]|] eqn:E; simpl;
      try by left.
    right. by exists fut, data.
  - destruct (Py.contains "event" data) as [[]|]; simpl; try by left.
    destruct (Py.getitem data "event") as [ev|]; simpl; try by left.
    destruct (Py.getitem ev "type"); simpl; try by left.
    destruct (Py.lookup_str _ _) as [[hs|]|]; simpl; try by left.
    rewrite for_each_create_task. by left.
Qed.

Lemma step_store o w :
  futures (fst (step o w)) = futures w ∨
  futures (fst (step o w)) = futures w ++ [Pending] ∨
  ∃ fut v, futures w !! fut = Some Pending ∧
           futures (fst (step o w)) = <[fut := Finished v]> (futures w).
Proof.
  destruct o as [h|action|t f|evs|a]; unfold step; cbn [fst snd].
  - left. by destruct (connect_world h w) as [sock ->].
  - right. left. destruct (execute_send_world action w) as [sock ->].
    by rewrite execute_issue_eq.
  - by left.
  - left. unfold subscribe.
    by destruct (ws_send_world (subscribe_request evs) w) as [sock ->].
  - destruct a as [msg| |]; simpl; try by left.
    pose proof (on_message_store msg w) as H.
    destruct (on_message msg w) as [w' [[]|e]]; simpl in *;
      (destruct H as [H|H]; [by left|by right; right]).
Qed.

Lemma step_keeps_finished o w i v :
  futures w !! i = Some (Finished v) →
  futures (fst (step o w)) !! i = Some (Finished v).
Proof.
  intros Hi. destruct (step_store o w) as [->|[->|(fut & v' & Hfut & ->)]].
  - done.
  - by apply lookup_app_l_Some.
  - rewrite list_lookup_insert_ne; [done|]. intros ->. congruence.
Qed.

Lemma step_store_length o w :
  length (futures w) ≤ length (futures (fst (step o w))).
Proof.
  destruct (step_store o w) as [->|[->|(fut & v' & Hfut & ->)]].
  - done.
  - rewrite length_app. simpl. lia.
  - by rewrite length_insert.
Qed.

(** X7: the outcome of a call is written once and for all: a future
    that is finished keeps its value through every later operation of
    the client (further responses with the same id included), and the
    store of futures never shrinks. *)
Theorem finished_future_never_changes ops w i v :
  futures w !! i = Some (Finished v) →
  futures (fst (run ops w)) !! i = Some (Finished v) ∧
  length (futures w) ≤ length (futures (fst (run ops w))).
Proof.
  revert w. induction ops as [|o ops IH]; intros w Hi; [done|].
  cbn [run fst]. destruct (IH _ (step_keeps_finished o w i v Hi)) as [H1 H2].
  split; [done|]. pose proof (step_store_length o w). lia.
Qed.

(** ** The table is never cleaned *)

Lemma tidy_boot u : tidy (boot u).
Proof.
  split; [done|]. intros n. simpl. rewrite lookup_empty.
  by rewrite decide_False by lia.
Qed.

Lemma tidy_step o w : tidy w → tidy (fst (step o w)).
Proof.
  intros [Hc Ht].
  assert (Hsame : ∀ w',
    request_id (client w') = request_id (client w) →
    pending_requests (client w') = pending_requests (client w) →
    length (futures w') = length (futures w) → tidy w').
  { intros w' H1 H2 H3. split; rewrite ?H1, ?H2, ?H3; done. }
  destruct o as [h|action|t f|evs|a]; unfold step; cbn [fst snd].
  - destruct (connect_world h w) as [sock ->]. by apply Hsame.
  - destruct (execute_send_world action w) as [sock ->].
    rewrite execute_issue_eq. split; simpl.
    + rewrite length_app. simpl. lia.
    + intros n. rewrite lookup_insert. case_decide as Hn.
      * subst n. rewrite decide_True by lia. f_equal. lia.
      * rewrite Ht. repeat case_decide; try done; lia.
  - by apply Hsame.
  - unfold subscribe.
    destruct (ws_send_world (subscribe_request evs) w) as [sock ->].
    by apply Hsame.
  - destruct (listen_one_client a w) as [sock Hcl].
    apply Hsame; rewrite ?Hcl; try done. apply listen_one_length.
Qed.

(** X8: no operation ever removes an entry of [pending_requests].
    After any session of a new client the counter is the number of
    [execute] calls among the operations of the session, the table holds
    exactly the ids from 1 to that number, whether their calls were
    answered or not, each with the future made for it, there are as many
    futures as ids, and the calls issued are as many again. *)
Theorem table_holds_every_id_ever_issued u ops :
  let w := fst (run ops (boot u)) in
  request_id (client w) = Z.of_nat (executes ops) ∧
  request_id (client w) = Z.of_nat (length (futures w)) ∧
  request_id (client w) = Z.of_nat (length (snd (run ops (boot u)))) ∧
  ∀ n, pending_requests (client w) !! n =
       if decide (1 ≤ n ≤ Z.of_nat (executes ops))%Z
       then Some (Z.to_nat (n - 1)) else None.
Proof.
  assert (Hrun : ∀ ops w, tidy w → tidy (fst (run ops w))).
  { clear. induction ops as [|o ops IH]; intros w Hw; simpl; [done|].
    apply IH, tidy_step, Hw. }
  destruct (Hrun ops (boot u) (tidy_boot u)) as [H1 H2].
  destruct (run_allocates ops (boot u)) as (H3 & H4 & _).
  simpl in H4. cbn zeta.
  split; [lia|]. split; [done|]. split; [lia|].
  intros n. rewrite H2, H4. done.
Qed.

(** ** The socket *)

(** X9: [subscribe] raises exactly when there is no open socket
    ([AttributeError] before [connect], [ConnectionClosed] after the
    close), and then it has changed nothing at all; otherwise it appends
    its one frame behind the frames already written. *)
Theorem subscribe_raises_without_side_effect events w :
  (∀ e, snd (subscribe events w) = Raise e →
        fst (subscribe events w) = w ∧
        (ws (client w) = None ∧ e = AttributeError ∨
         ∃ conn, ws (client w) = Some conn ∧ is_open conn = false ∧
                 e = ConnectionClosed)) ∧
  (snd (subscribe events w) = Ok tt →
   ∃ conn, ws (client w) = Some conn ∧ is_open conn = true ∧
           fst (subscribe events w) =
             with_client (set_ws (Some (Connection true
               (outbox conn ++ [subscribe_request events])))) w).
Proof.
  unfold subscribe, ws_send.
  destruct (ws (client w)) as [conn|] eqn:Hws; [destruct (is_open conn) eqn:Ho|];
    simpl; split; try done.
  - intros _. by exists conn.
  - intros e [= <-]. split; [done|]. right. by exists conn.
  - intros e [= <-]. split; [done|]. by left.
Qed.

Lemma contains_raise k data e : Py.contains k data = Raise e → e = TypeError.
Proof. destruct data; simpl; congruence. Qed.

Lemma getitem_raise data k e :
  Py.getitem data k = Raise e → e = TypeError ∨ e = KeyError k.
Proof.
  destruct data; simpl; try (intros [= <-]; by left).
  destruct (fields !! k); [done|]. intros [= <-]. by right.
Qed.

Lemma lookup_int_raise {V} (d : gmap Z V) v e :
  Py.lookup_int d v = Raise e → e = TypeError.
Proof. unfold Py.lookup_int. destruct v; simpl; try congruence.
  by destruct (Py.float_as_int f). Qed.

Lemma lookup_str_raise {V} (d : gmap string V) v e :
  Py.lookup_str d v = Raise e → e = TypeError.
Proof. unfold Py.lookup_str. destruct v; simpl; congruence. Qed.

Lemma getitem_after_contains data k e :
  Py.contains k data = Ok true → Py.getitem data k = Raise e → e = TypeError.
Proof.
  destruct data; simpl; try congruence.
  intros [= Hk]. apply bool_decide_eq_true in Hk as [v ->]. done.
Qed.

(** A frame on which the body of the loop raises has changed nothing,
    and the exception is one of four. *)
Lemma on_message_raise msg w w' e :
  on_message msg w = (w', Raise e) →
  w' = w ∧
  (e = JSONDecodeError ∨ e = TypeError ∨ e = KeyError "type" ∨
   e = InvalidStateError).
Proof.
  unfold on_message, bind, lift, self. destruct msg as [raw|data]; simpl.
  { intros [= <- <-]. eauto. }
  destruct (Py.contains "id" data) as [[]|e1] eqn:E1; simpl.
  - destruct (Py.getitem data "id") as [v|e2] eqn:E2; simpl.
    + destruct (Py.lookup_int _ v) as [[fut|]|e3] eqn:E3; simpl.
      * unfold set_result. destruct (futures w !! fut) as [[]|]; try done;
          intros [= <- <-]; eauto 10.
      * done.
      * intros [= <- <-]. apply lookup_int_raise in E3 as ->. eauto.
    + intros [= <- <-]. apply (getitem_after_contains _ _ _ E1) in E2 as ->. eauto.
  - destruct (Py.contains "event" data) as [[]|e2] eqn:E2; simpl.
    + destruct (Py.getitem data "event") as [ev|e3] eqn:E3; simpl.
      * destruct (Py.getitem ev "type") as [ty|e4] eqn:E4; simpl.
        -- destruct (Py.lookup_str _ ty) as [[hs|]|e5] eqn:E5; simpl.
           ++ by rewrite for_each_create_task.
           ++ done.
           ++ intros [= <- <-]. apply lookup_str_raise in E5 as ->. eauto.
        -- intros [= <- <-]. apply getitem_raise in E4 as [->| ->]; eauto 10.
      * intros [= <- <-]. apply (getitem_after_contains _ _ _ E2) in E3 as ->. eauto.
    + done.
    + intros [= <- <-]. apply contains_raise in E2 as ->. eauto.
  - intros [= <- <-]. apply contains_raise in E1 as ->. eauto.
Qed.

(** On a frame that decodes, the exception is one of three. *)
Lemma on_message_raise_decoded data w w' e :
  on_message (Encoded data) w = (w', Raise e) →
  e = TypeError ∨ e = KeyError "type" ∨ e = InvalidStateError.
Proof.
  unfold on_message, bind, lift, self. simpl.
  destruct (Py.contains "id" data) as [[]|e1] eqn:E1; simpl.
  - destruct (Py.getitem data "id") as [v|e2] eqn:E2; simpl.
    + destruct (Py.lookup_int _ v) as [[fut|]|e3] eqn:E3; simpl.
      * unfold set_result. destruct (futures w !! fut) as [[]|]; try done;
          intros [= <- <-]; eauto 10.
      * done.
      * intros [= <- <-]. apply lookup_int_raise in E3 as ->. eauto.
    + intros [= <- <-]. apply (getitem_after_contains _ _ _ E1) in E2 as ->. eauto.
  - destruct (Py.contains "event" data) as [[]|e2] eqn:E2; simpl.
    + destruct (Py.getitem data "event") as [ev|e3] eqn:E3; simpl.
      * destruct (Py.getitem ev "type") as [ty|e4] eqn:E4; simpl.
        -- destruct (Py.lookup_str _ ty) as [[hs|]|e5] eqn:E5; simpl.
           ++ by rewrite for_each_create_task.
           ++ done.
           ++ intros [= <- <-]. apply lookup_str_raise in E5 as ->. eauto.
        -- intros [= <- <-]. apply getitem_raise in E4 as [->| ->]; eauto 10.
      * intros [= <- <-]. apply (getitem_after_contains _ _ _ E2) in E3 as ->. eauto.
    + done.
    + intros [= <- <-]. apply contains_raise in E2 as ->. eauto.
  - intros [= <- <-]. apply contains_raise in E1 as ->. eauto.
Qed.

(** The listener ends with [Returned] or [ConnectionClosed] only at a
    close of the connection, which leaves the socket closed. *)
Lemma listen_loop_closed stream w st :
  is_Some (ws (client w)) →
  snd (listen_loop stream w) = st →
  st = Returned ∨ st = Died ConnectionClosed →
  ∃ conn, ws (client (fst (listen_loop stream w))) = Some conn ∧
          is_open conn = false.
Proof.
  revert w. induction stream as [|[msg| |] stream IH]; intros w Hws Hst Hend; simpl in *.
  - subst st. by destruct Hend.
  - pose proof (on_message_client msg w) as Hc.
    destruct (on_message msg w) as [w' [[]|e]] eqn:E; simpl in *.
    + apply IH; [by rewrite Hc|done|done].
    + subst st. destruct Hend as [|[= ->]]; [done|].
      apply on_message_raise in E as [_ E].
      by destruct E as [?|[?|[?|?]]].
  - destruct Hws as [conn ->]. by eexists.
  - destruct Hws as [conn ->]. by eexists.
Qed.

(** X10: once the listener has ended at the close of the connection,
    every [execute] raises [ConnectionClosed], having nevertheless taken
    the next id and entered a pending future for it, and every
    [subscribe] raises [ConnectionClosed]. *)
Theorem execute_after_close_raises stream action events w :
  is_Some (ws (client w)) →
  snd (_listen stream w) = Returned ∨ snd (_listen stream w) = Died ConnectionClosed →
  let w1 := fst (_listen stream w) in
  snd (execute_send action w1) = Raise ConnectionClosed ∧
  request_id (client (fst (execute_send action w1))) = (request_id (client w1) + 1)%Z ∧
  outstanding (Call (request_id (client w1) + 1) (length (futures w1)))
              (fst (execute_send action w1)) ∧
  subscribe events w1 = (w1, Raise ConnectionClosed).
Proof.
  intros Hws Hend. rewrite _listen_connected in * by done. intros w1.
  destruct (listen_loop_closed stream w _ Hws eq_refl Hend) as (conn & Hc & Ho).
  fold w1 in Hc.
  assert (Hsend : ∀ frame w2, ws (client w2) = Some conn →
            ws_send frame w2 = (w2, Raise ConnectionClosed)).
  { intros frame w2 H2. unfold ws_send. by rewrite H2, Ho. }
  unfold execute_send, bind. rewrite execute_issue_eq. cbn [fst snd].
  rewrite Hsend by done. cbn [fst snd client request_id].
  split; [done|]. split; [done|]. split.
  - split; simpl; [apply lookup_insert_eq|by rewrite lookup_app_r, Nat.sub_diag].
  - unfold subscribe. by apply Hsend.
Qed.

(** ** How the listener can end *)

(** X11: on a frame that decodes, the body of the loop (lines 39 to
    49, with handlers that are coroutine functions of the event) raises
    three exceptions only: [TypeError], [KeyError] for a missing
    ["type"], and [InvalidStateError]; and when it raises it has changed
    nothing.  Whatever the exception and whatever the frame, decoded or
    not, the frame the listener dies on leaves no trace: the state is
    the one the frames before it left, and nothing behind it is read.
    (What else ends the listener comes from outside the body: the
    iteration over the socket, and [json.loads].) *)
Theorem listener_failure_modes stream w :
  (∀ data w0 e,
     snd (on_message (Encoded data) w0) = Raise e →
     fst (on_message (Encoded data) w0) = w0 ∧
     (e = TypeError ∨ e = KeyError "type" ∨ e = InvalidStateError)) ∧
  (∀ pre msg post e,
     stream = pre ++ Frame msg :: post →
     snd (listen_loop pre w) = Waiting →
     snd (on_message msg (fst (listen_loop pre w))) = Raise e →
     listen_loop stream w = (fst (listen_loop pre w), Died e)).
Proof.
  split.
  - intros data w0 e He.
    destruct (on_message (Encoded data) w0) as [w' r] eqn:E. simpl in *. subst r.
    split; [by apply on_message_raise in E as [-> _]|].
    by apply on_message_raise_decoded in E.
  - intros pre msg post e -> Hpre Hraise. rewrite listen_loop_app.
    destruct (listen_loop pre w) as [w1 st]. simpl in *. subst st. simpl.
    destruct (on_message msg w1) as [w' [[]|e']] eqn:E; simpl in *; [done|].
    injection Hraise as ->. by apply on_message_raise in E as [-> _].
Qed.

(** ** Connecting again *)

(** X12: [connect] starts on a new socket with nothing written to it,
    and resets nothing else: the counter goes on from where it was and
    the table keeps its entries, so a call left outstanding on the old
    connection is answered by a frame with its id that arrives on the
    new one.  A [connect] that fails changes nothing. *)
Theorem reconnect_keeps_counter_and_table k fields e w :
  outstanding k w →
  fields !! "id" = Some (JInt (call_id k)) →
  let w1 := fst (connect (Ok tt) w) in
  ws (client w1) = Some (Connection true []) ∧
  request_id (client w1) = request_id (client w) ∧
  pending_requests (client w1) = pending_requests (client w) ∧
  event_handlers (client w1) = event_handlers (client w) ∧
  futures w1 = futures w ∧
  execute_outcome k (fst (_listen [Frame (Encoded (JObj fields))] w1)) =
    Some (execute_finish (JObj fields)) ∧
  connect (Raise e) w = (w, Raise e).
Proof.
  intros Hout Hid w1. subst w1. unfold connect, bind, lift, update_self. simpl.
  do 5 (split; [done|]). split; [|done].
  unfold _listen. simpl.
  rewrite (on_message_resolves k fields _ Hid) by done. simpl.
  unfold execute_outcome. simpl.
  by rewrite list_lookup_insert_eq
    by (destruct Hout as [_ Hf]; by apply lookup_lt_Some in Hf).
Qed.

(** ** Registration and the listener *)

Lemma on_event_lookup_other t f w ty :
  ty ≠ JStr t →
  Py.lookup_str (event_handlers (client (on_event t f w))) ty =
  Py.lookup_str (event_handlers (client w)) ty.
Proof.
  intros Hty. unfold Py.lookup_str. destruct ty as [| | | |s| |]; try done.
  simpl. f_equal. assert (t ≠ s) by congruence.
  rewrite lookup_alter_ne by done.
  case_decide; [done|]. by rewrite lookup_insert_ne.
Qed.

(** X13: registering a handler for a type changes the table of handlers
    and nothing else, and it changes the handling of no frame but the
    events of that type: on every other frame the listener does the
    same, with the same outcome, whether the handler is registered
    before the frame or after it. *)
Theorem registration_leaves_other_frames_alone t f msg w :
  (∀ fields ev, msg = Encoded (JObj fields) →
     fields !! "id" = None → fields !! "event" = Some (JObj ev) →
     ev !! "type" ≠ Some (JStr t)) →
  on_message msg (on_event t f w) =
    (on_event t f (fst (on_message msg w)), snd (on_message msg w)).
Proof.
  intros Hother. unfold on_message, bind, lift, self.
  destruct msg as [raw|data]; simpl; [done|].
  destruct (Py.contains "id" data) as [[]|e1] eqn:E1; simpl; try done.
  - destruct (Py.getitem data "id") as [v|e2]; simpl; try done.
    destruct (Py.lookup_int _ v) as [[fut|]|e3]; simpl; try done.
    unfold set_result. simpl. by destruct (futures w !! fut) as [[]|].
  - destruct (Py.contains "event" data) as [[]|e2] eqn:E2; simpl; try done.
    destruct (Py.getitem data "event") as [ev|e3] eqn:E3; simpl; try done.
    destruct (Py.getitem ev "type") as [ty|e4] eqn:E4; simpl; try done.
    assert (Hty : ty ≠ JStr t).
    { intros ->. destruct data as [| | | | | |fields]; try done.
      destruct ev as [| | | | | |evf]; try done. simpl in *.
      apply (Hother fields evf eq_refl).
      - injection E1 as E1. apply bool_decide_eq_false in E1.
        destruct (fields !! "id"); [|done]. destruct E1. eauto.
      - destruct (fields !! "event"); by simplify_eq.
      - destruct (evf !! "type"); by simplify_eq. }
    pose proof (on_event_lookup_other t f w ty Hty) as Hl. simpl in Hl.
    rewrite Hl. clear Hl.
    destruct (Py.lookup_str (event_handlers (client w)) ty) as [[hs|]|e5];
      simpl; try done.
    by rewrite !for_each_create_task.
Qed.

(** ** What the listener never does *)

Lemma on_message_tasks msg w :
  ∃ new, tasks (fst (on_message msg w)) = tasks w ++ new.
Proof.
  assert (Hnil : ∃ new, tasks w = tasks w ++ new)
    by (exists []; by rewrite app_nil_r).
  unfold on_message, bind, lift, self. destruct msg as [raw|data]; simpl; [done|].
  destruct (Py.contains "id" data) as [[]|]; simpl; try done.
  - destruct (Py.getitem data "id"); simpl; try done.
    destruct (Py.lookup_int _ _) as [[fut|]|]; simpl; try done.
    unfold set_result. by destruct (futures w !! fut) as [[]|].
  - destruct (Py.contains "event" data) as [[]|]; simpl; try done.
    destruct (Py.getitem data "event") as [ev|]; simpl; try done.
    destruct (Py.getitem ev "type"); simpl; try done.
    destruct (Py.lookup_str _ _) as [[hs|]|]; simpl; try done.
    rewrite for_each_create_task. simpl. eauto.
Qed.

(** X14: whatever arrives, the listener sends nothing, takes no id and
    makes no future: the counter, the table, the handlers and the frames
    written to the socket are as before, there are as many futures as
    before, and the tasks queued before are still queued, in front of
    the new ones. *)
Theorem listener_takes_no_id_and_sends_nothing stream w :
  let w' := fst (listen_loop stream w) in
  request_id (client w') = request_id (client w) ∧
  pending_requests (client w') = pending_requests (client w) ∧
  event_handlers (client w') = event_handlers (client w) ∧
  outbox <$> ws (client w') = outbox <$> ws (client w) ∧
  length (futures w') = length (futures w) ∧
  ∃ new, tasks w' = tasks w ++ new.
Proof.
  revert w. induction stream as [|[msg| |] stream IH]; intros w; simpl.
  - repeat split; try done. exists []. by rewrite app_nil_r.
  - pose proof (on_message_client msg w) as Hc.
    pose proof (on_message_length msg w) as Hl.
    destruct (on_message_tasks msg w) as [new Ht].
    destruct (on_message msg w) as [w1 [[]|e]]; simpl in *.
    + destruct (IH w1) as (H1 & H2 & H3 & H4 & H5 & new' & H6).
      rewrite H1, H2, H3, H4, H5, H6, Hc, Hl, Ht.
      repeat split; try done. exists (new ++ new'). by rewrite app_assoc.
    + rewrite Hc, Hl, Ht. repeat split; try done. by exists new.
  - repeat split; try done.
    + by destruct (ws (client w)).
    + exists []. by rewrite app_nil_r.
  - repeat split; try done.
    + by destruct (ws (client w)).
    + exists []. by rewrite app_nil_r.
Qed.

(** ** Requests in the order of the calls *)

(** X15: on an open socket, calls of [execute] made one after the other
    write their requests in the order of the calls, behind what was
    written before, with consecutive ids from the counter on; each call
    gets a new future. *)
Theorem requests_written_in_call_order actions conn w :
  ws (client w) = Some conn → is_open conn = true →
  ws (client (fst (run (Execute <$> actions) w))) =
    Some (Connection true
      (outbox conn ++
       imap (λ i a, execute_request a (request_id (client w) + 1 + Z.of_nat i))
            actions)) ∧
  snd (run (Execute <$> actions) w) =
    imap (λ i _, Call (request_id (client w) + 1 + Z.of_nat i)
                      (length (futures w) + i)) actions.
Proof.
  revert conn w. induction actions as [|a actions IH]; intros conn w Hws Hopen.
  { simpl. rewrite app_nil_r. split; [|done]. rewrite Hws. by destruct conn; simplify_eq/=. }
  rewrite fmap_cons. cbn [run fst snd step].
  assert (Hsend : execute_send a w =
    (with_client (set_ws (Some (Connection true
        (outbox conn ++ [execute_request a (request_id (client w) + 1)]))))
       (fst (execute_issue a w)),
     Ok (Call (request_id (client w) + 1) (length (futures w))))).
  { unfold execute_send, bind. rewrite execute_issue_eq. cbn [fst snd].
    by erewrite ws_send_open by (simpl; eauto). }
  rewrite Hsend. cbn [fst].
  destruct (IH (Connection true
                 (outbox conn ++ [execute_request a (request_id (client w) + 1)]))
               (with_client (set_ws (Some (Connection true
                 (outbox conn ++ [execute_request a (request_id (client w) + 1)]))))
                 (fst (execute_issue a w)))) as [H1 H2]; [done|done|].
  rewrite H1, H2. unfold issued. rewrite execute_issue_eq. simpl.
  rewrite <- app_assoc, length_app. simpl. split.
  - do 3 f_equal. rewrite Z.add_0_r. f_equal.
    apply imap_ext. intros i x _. simpl. f_equal. lia.
  - rewrite Z.add_0_r, Nat.add_0_r. f_equal.
    apply imap_ext. intros i x _. simpl. f_equal; lia.
Qed.

(** * The further properties at work on the sample clients *)

Lemma non_object_frame_skipped_or_fatal_sample :
  (∀ fields, JInt 5 ≠ JObj fields) ∧
  listen_loop (Frame (Encoded (JInt 5)) :: [good_frame]) (after_calls 2) =
    (after_calls 2, Died TypeError).
Proof.
  assert (H : ∀ fields, JInt 5 ≠ JObj fields) by done.
  split; [exact H|].
  exact (proj2 (non_object_frame_skipped_or_fatal (JInt 5) [good_frame]
                  (after_calls 2) H)).
Defined.

Lemma frame_with_id_is_never_dispatched_sample :
  reply_with_event !! "id" = Some (JInt 1) ∧
  tasks (fst (on_message (Encoded (JObj reply_with_event)) one_registered)) =
    tasks one_registered ∧
  client (fst (on_message (Encoded (JObj reply_with_event)) one_registered)) =
    client one_registered.
Proof.
  assert (H : reply_with_event !! "id" = Some (JInt 1)) by (vm_compute; reflexivity).
  split; [exact H|].
  exact (frame_with_id_is_never_dispatched reply_with_event (JInt 1)
           one_registered H).
Defined.

Lemma non_numeric_id_skipped_or_fatal_sample :
  (reply_text_id !! "id" = Some (JStr "1") ∧
   reply_list_id !! "id" = Some (JArr [JInt 1])) ∧
  listen_loop (Frame (Encoded (JObj reply_text_id)) :: [good_frame]) (after_calls 2) =
    listen_loop [good_frame] (after_calls 2) ∧
  listen_loop (Frame (Encoded (JObj reply_list_id)) :: [good_frame]) (after_calls 2) =
    (after_calls 2, Died TypeError).
Proof.
  assert (H1 : reply_text_id !! "id" = Some (JStr "1")) by (vm_compute; reflexivity).
  assert (H2 : reply_list_id !! "id" = Some (JArr [JInt 1]))
    by (vm_compute; reflexivity).
  split; [by split|]. split.
  - apply (proj1 (non_numeric_id_skipped_or_fatal reply_text_id (JStr "1")
                    [good_frame] (after_calls 2) H1)).
    right. by eexists.
  - apply (proj2 (non_numeric_id_skipped_or_fatal reply_list_id (JArr [JInt 1])
                    [good_frame] (after_calls 2) H2)).
    left. by eexists.
Defined.

Lemma id_matched_by_python_equality_sample :
  (reply_true !! "id" = Some (JBool true) ∧
   Py.int_key (JBool true) = Ok (Some (call_id (Call 1 0))) ∧
   outstanding (Call 1 0) (after_calls 2)) ∧
  on_message (Encoded (JObj reply_true)) (after_calls 2) =
    (World (client (after_calls 2))
           (<[0 := Finished (JObj reply_true)]> (futures (after_calls 2)))
           (tasks (after_calls 2)), Ok tt).
Proof.
  assert (H1 : reply_true !! "id" = Some (JBool true)) by (vm_compute; reflexivity).
  assert (H2 : Py.int_key (JBool true) = Ok (Some (call_id (Call 1 0))))
    by reflexivity.
  assert (H3 : outstanding (Call 1 0) (after_calls 2))
    by (split; vm_compute; reflexivity).
  split; [by repeat split|].
  exact (proj1 (id_matched_by_python_equality (Call 1 0) reply_true (JBool true)
                  (after_calls 2) H1 H2 H3)).
Defined.

Lemma malformed_event_ends_listener_sample :
  (untyped_event_frame !! "id" = None ∧
   untyped_event_frame !! "event" = Some (JObj {["pane_id" := JInt 7]}) ∧
   ({["pane_id" := JInt 7]} : gmap string json) !! "type" = None) ∧
  listen_loop (Frame (Encoded (JObj untyped_event_frame)) :: [good_frame])
              (after_calls 2) =
    (after_calls 2, Died (KeyError "type")).
Proof.
  assert (H1 : untyped_event_frame !! "id" = None) by (vm_compute; reflexivity).
  assert (H2 : untyped_event_frame !! "event" = Some (JObj {["pane_id" := JInt 7]}))
    by (vm_compute; reflexivity).
  assert (H3 : ({["pane_id" := JInt 7]} : gmap string json) !! "type" = None)
    by (vm_compute; reflexivity).
  split; [by repeat split|].
  exact (proj1 (proj2 (malformed_event_ends_listener untyped_event_frame
                         (JObj {["pane_id" := JInt 7]}) [good_frame]
                         (after_calls 2) H1 H2))
               {["pane_id" := JInt 7]} eq_refl H3).
Defined.

Lemma success_response_returns_result_sample :
  (is_Some (ws (client (after_calls 2))) ∧
   outstanding (Call 1 0) (after_calls 2) ∧
   bare_reply !! "id" = Some (JInt 1) ∧
   bare_reply !! "error" = None) ∧
  execute_outcome (Call 1 0)
    (fst (_listen [Frame (Encoded (JObj bare_reply))] (after_calls 2))) =
    Some (Ok (default JNull (bare_reply !! "result"))).
Proof.
  assert (H1 : is_Some (ws (client (after_calls 2)))).
  { eexists. vm_compute. reflexivity. }
  assert (H2 : outstanding (Call 1 0) (after_calls 2))
    by (split; vm_compute; reflexivity).
  assert (H3 : bare_reply !! "id" = Some (JInt 1)) by (vm_compute; reflexivity).
  assert (H4 : bare_reply !! "error" = None) by (vm_compute; reflexivity).
  split; [by repeat split|].
  exact (success_response_returns_result (Call 1 0) bare_reply (after_calls 2)
           H1 H2 H3 H4).
Defined.

Lemma finished_future_never_changes_sample :
  futures one_answered !! 0 = Some (Finished (JObj (reply 1))) ∧
  futures (fst (run [Receive good_frame; Execute sample_action] one_answered)) !! 0 =
    Some (Finished (JObj (reply 1))) ∧
  length (futures one_answered) ≤
    length (futures (fst (run [Receive good_frame; Execute sample_action] one_answered))).
Proof.
  assert (H : futures one_answered !! 0 = Some (Finished (JObj (reply 1))))
    by (vm_compute; reflexivity).
  split; [exact H|].
  exact (finished_future_never_changes [Receive good_frame; Execute sample_action]
           one_answered 0 (JObj (reply 1)) H).
Defined.

Lemma subscribe_raises_without_side_effect_sample :
  snd (subscribe ["pane_output"] (boot sample_url)) = Raise AttributeError ∧
  fst (subscribe ["pane_output"] (boot sample_url)) = boot sample_url.
Proof.
  assert (H : snd (subscribe ["pane_output"] (boot sample_url)) = Raise AttributeError)
    by reflexivity.
  split; [exact H|].
  exact (proj1 (proj1 (subscribe_raises_without_side_effect ["pane_output"]
                         (boot sample_url)) AttributeError H)).
Defined.

Lemma execute_after_close_raises_sample :
  (is_Some (ws (client (after_calls 1))) ∧
   (snd (_listen [CloseOk] (after_calls 1)) = Returned ∨
    snd (_listen [CloseOk] (after_calls 1)) = Died ConnectionClosed)) ∧
  snd (execute_send sample_action (fst (_listen [CloseOk] (after_calls 1)))) =
    Raise ConnectionClosed ∧
  request_id (client (fst (execute_send sample_action
                             (fst (_listen [CloseOk] (after_calls 1)))))) =
    (request_id (client (fst (_listen [CloseOk] (after_calls 1)))) + 1)%Z ∧
  outstanding
    (Call (request_id (client (fst (_listen [CloseOk] (after_calls 1)))) + 1)
          (length (futures (fst (_listen [CloseOk] (after_calls 1))))))
    (fst (execute_send sample_action (fst (_listen [CloseOk] (after_calls 1))))) ∧
  subscribe ["pane_output"] (fst (_listen [CloseOk] (after_calls 1))) =
    (fst (_listen [CloseOk] (after_calls 1)), Raise ConnectionClosed).
Proof.
  assert (H1 : is_Some (ws (client (after_calls 1)))).
  { eexists. vm_compute. reflexivity. }
  assert (H2 : snd (_listen [CloseOk] (after_calls 1)) = Returned ∨
               snd (_listen [CloseOk] (after_calls 1)) = Died ConnectionClosed).
  { left. vm_compute. reflexivity. }
  split; [by split|].
  exact (execute_after_close_raises [CloseOk] sample_action ["pane_output"]
           (after_calls 1) H1 H2).
Defined.

Lemma listener_failure_modes_sample :
  ([good_frame; Frame (Encoded (JObj untyped_event_frame));
    Frame (Encoded (JObj (reply 2)))] =
     [good_frame] ++ Frame (Encoded (JObj untyped_event_frame))
                  :: [Frame (Encoded (JObj (reply 2)))] ∧
   snd (listen_loop [good_frame] (after_calls 2)) = Waiting ∧
   snd (on_message (Encoded (JObj untyped_event_frame))
                   (fst (listen_loop [good_frame] (after_calls 2)))) =
     Raise (KeyError "type")) ∧
  listen_loop [good_frame; Frame (Encoded (JObj untyped_event_frame));
               Frame (Encoded (JObj (reply 2)))] (after_calls 2) =
    (fst (listen_loop [good_frame] (after_calls 2)), Died (KeyError "type")) ∧
  fst (on_message (Encoded (JObj untyped_event_frame))
                  (fst (listen_loop [good_frame] (after_calls 2)))) =
    fst (listen_loop [good_frame] (after_calls 2)).
Proof.
  assert (H1 : snd (listen_loop [good_frame] (after_calls 2)) = Waiting)
    by (vm_compute; reflexivity).
  assert (H2 : snd (on_message (Encoded (JObj untyped_event_frame))
                      (fst (listen_loop [good_frame] (after_calls 2)))) =
               Raise (KeyError "type")) by (vm_compute; reflexivity).
  split; [by repeat split|].
  split.
  - exact (proj2 (listener_failure_modes _ (after_calls 2))
             [good_frame] (Encoded (JObj untyped_event_frame))
             [Frame (Encoded (JObj (reply 2)))] (KeyError "type") eq_refl H1 H2).
  - exact (proj1 (proj1 (listener_failure_modes [] (after_calls 2))
             (JObj untyped_event_frame)
             (fst (listen_loop [good_frame] (after_calls 2)))
             (KeyError "type") H2)).
Defined.

Lemma reconnect_keeps_counter_and_table_sample :
  (outstanding (Call 3 2) three_outstanding ∧
   reply 3 !! "id" = Some (JInt 3)) ∧
  ws (client (fst (connect (Ok tt) three_outstanding))) = Some (Connection true []) ∧
  request_id (client (fst (connect (Ok tt) three_outstanding))) =
    request_id (client three_outstanding) ∧
  pending_requests (client (fst (connect (Ok tt) three_outstanding))) =
    pending_requests (client three_outstanding) ∧
  event_handlers (client (fst (connect (Ok tt) three_outstanding))) =
    event_handlers (client three_outstanding) ∧
  futures (fst (connect (Ok tt) three_outstanding)) = futures three_outstanding ∧
  execute_outcome (Call 3 2)
    (fst (_listen [Frame (Encoded (JObj (reply 3)))]
                  (fst (connect (Ok tt) three_outstanding)))) =
    Some (execute_finish (JObj (reply 3))) ∧
  connect (Raise ConnectFailed) three_outstanding =
    (three_outstanding, Raise ConnectFailed).
Proof.
  assert (H1 : outstanding (Call 3 2) three_outstanding)
    by (split; vm_compute; reflexivity).
  assert (H2 : reply 3 !! "id" = Some (JInt 3)) by (vm_compute; reflexivity).
  split; [by split|].
  exact (reconnect_keeps_counter_and_table (Call 3 2) (reply 3) ConnectFailed
           three_outstanding H1 H2).
Defined.

Lemma registration_leaves_other_frames_alone_sample :
  (∀ fields ev,
     Encoded (JObj sample_event_frame) = Encoded (JObj fields) →
     fields !! "id" = None → fields !! "event" = Some (JObj ev) →
     ev !! "type" ≠ Some (JStr "command_completed")) ∧
  on_message (Encoded (JObj sample_event_frame))
             (on_event "command_completed" last_handler one_registered) =
    (on_event "command_completed" last_handler
       (fst (on_message (Encoded (JObj sample_event_frame)) one_registered)),
     snd (on_message (Encoded (JObj sample_event_frame)) one_registered)).
Proof.
  assert (H : ∀ fields ev,
     Encoded (JObj sample_event_frame) = Encoded (JObj fields) →
     fields !! "id" = None → fields !! "event" = Some (JObj ev) →
     ev !! "type" ≠ Some (JStr "command_completed")).
  { intros fields ev [= <-] _ Hev. vm_compute in Hev.
    injection Hev as <-. vm_compute. discriminate. }
  split; [exact H|].
  exact (registration_leaves_other_frames_alone "command_completed" last_handler
           (Encoded (JObj sample_event_frame)) one_registered H).
Defined.

Lemma requests_written_in_call_order_sample :
  (ws (client (after_calls 1)) = Some socket_after_one_call ∧
   is_open socket_after_one_call = true) ∧
  ws (client (fst (run (Execute <$> [sample_action; JNull]) (after_calls 1)))) =
    Some (Connection true
      (outbox socket_after_one_call ++
       imap (λ i a, execute_request a
                      (request_id (client (after_calls 1)) + 1 + Z.of_nat i))
            [sample_action; JNull])) ∧
  snd (run (Execute <$> [sample_action; JNull]) (after_calls 1)) =
    imap (λ i _, Call (request_id (client (after_calls 1)) + 1 + Z.of_nat i)
                      (length (futures (after_calls 1)) + i))
         [sample_action; JNull].
Proof.
  assert (H1 : ws (client (after_calls 1)) = Some socket_after_one_call)
    by (vm_compute; reflexivity).
  assert (H2 : is_open socket_after_one_call = true) by reflexivity.
  split; [by split|].
  exact (requests_written_in_call_order [sample_action; JNull]
           socket_after_one_call (after_calls 1) H1 H2).
Defined.

(** * Properties of the agent *)

(** ** Coroutines in sequence *)

Lemma drive_andthen {A B} (c : coro A) (f : A → coro B) m :
  drive (andthen c f) m =
  match drive c m with
  | (m', Done (Ok a)) => drive (f a) m'
  | (m', Done (Raise e)) => (m', Done (Raise e))
  | (m', Suspended) => (m', Suspended)
  | (m', Handling) => (m', Handling)
  end.
Proof.
  revert m. induction c as [a|e|l k IH|k IH|g k IH|h k IH|method k IH|action k IH
                            |fut k IH|k IH]; intros m; simpl; try done.
  - by destruct (connect h (m_world m)) as [w [[]|e]].
  - destruct (m_feed m) as [|piece feed]; [done|].
    destruct (started_handler _ _); [done|].
    by destruct (futures _ !! fut) as [[|response]|].
  - destruct (m_feed m) as [|piece feed]; [done|].
    by destruct (started_handler _ _).
Qed.




(** A suspension during which the listener makes no task. *)
Lemma started_handler_same m m' :
  tasks (m_world m') = tasks (m_world m) → started_handler m m' = false.
Proof. intros H. unfold started_handler. by rewrite H, Nat.eqb_refl. Qed.

Lemma drive_raising {A B} (r : result A) (f : A → coro B) m :
  drive (andthen (raising r) f) m =
  match r with
  | Ok a => drive (f a) m
  | Raise e => (m, Done (Raise e))
  end.
Proof. by destruct r. Qed.

(** ** The handlers of the agent *)


Lemma split_nonempty sep s : ∃ piece pieces, PyStr.split sep s = piece :: pieces.
Proof.
  induction s as [|c s (piece & pieces & IH)]; simpl; [eauto|].
  destruct (Ascii.eqb c sep); [eauto|]. rewrite IH. eauto.
Qed.





(** ** The file name taken from the output *)

Lemma split_pieces_no_sep sep s piece :
  piece ∈ PyStr.split sep s → sep ∉ list_ascii_of_string piece.
Proof.
  revert piece. induction s as [|c s IH]; intros piece; simpl.
  - intros ->%list_elem_of_singleton. simpl. by intros ?%elem_of_nil.
  - destruct (Ascii.eqb_spec c sep) as [->|Hne].
    + intros [->|Hp]%elem_of_cons; [|by apply IH].
      simpl. by intros ?%elem_of_nil.
    + destruct (split_nonempty sep s) as (p0 & ps & E). rewrite E in *.
      intros [->|Hp]%elem_of_cons.
      * simpl. intros [?|Hin]%elem_of_cons; [done|].
        by apply (IH p0); [left|].
      * apply IH. by right.
Qed.

Lemma split_pieces_chars sep s piece c :
  piece ∈ PyStr.split sep s →
  c ∈ list_ascii_of_string piece → c ∈ list_ascii_of_string s.
Proof.
  revert piece. induction s as [|a s IH]; intros piece; simpl.
  - by intros ->%list_elem_of_singleton.
  - destruct (Ascii.eqb a sep).
    + intros [->|Hp]%elem_of_cons; simpl; [by intros ?%elem_of_nil|].
      intros Hc. right. by apply (IH piece).
    + destruct (split_nonempty sep s) as (p0 & ps & E). rewrite E in *.
      intros [->|Hp]%elem_of_cons; simpl.
      * intros [->|Hc]%elem_of_cons; [by left|]. right. apply (IH p0); [by left|done].
      * intros Hc. right. apply (IH piece); [by right|done].
Qed.

Lemma drop_leading_chars one two three s c :
  c ∈ list_ascii_of_string (PyStr.drop_leading one two three s) →
  c ∈ list_ascii_of_string s.
Proof.
  assert (H : ∀ n s, String.length s ≤ n →
    c ∈ list_ascii_of_string (PyStr.drop_leading one two three s) →
    c ∈ list_ascii_of_string s); [|by apply (H (String.length s))].
  clear s. induction n as [|n IH]; intros s Hn.
  { by destruct s; simpl in *; [|lia]. }
  destruct s as [|a r1]; [done|]. cbn [PyStr.drop_leading]. simpl in Hn.
  destruct (one a).
  { intros Hc. simpl. right. apply IH; [lia|done]. }
  destruct r1 as [|b r2]; [done|]. simpl in Hn.
  destruct (two a b).
  { intros Hc. simpl. right. right. apply IH; [lia|done]. }
  destruct r2 as [|d r3]; [done|]. simpl in Hn.
  destruct (three a b d); [|done].
  intros Hc. simpl. right. right. right. apply IH; [lia|done].
Qed.

Lemma rev_app_chars s t :
  list_ascii_of_string (String.rev_app s t) =
  reverse (list_ascii_of_string s) ++ list_ascii_of_string t.
Proof.
  revert t. induction s as [|a s IH]; intros t; simpl; [done|].
  by rewrite IH, reverse_cons, <- app_assoc.
Qed.

Lemma rev_chars s c :
  c ∈ list_ascii_of_string (String.rev s) ↔ c ∈ list_ascii_of_string s.
Proof.
  unfold String.rev. rewrite rev_app_chars. simpl.
  by rewrite app_nil_r, elem_of_reverse.
Qed.

Lemma strip_chars s c :
  c ∈ list_ascii_of_string (PyStr.strip s) → c ∈ list_ascii_of_string s.
Proof.
  unfold PyStr.strip, PyStr.rstrip, PyStr.lstrip.
  intros Hc. apply (proj1 (rev_chars _ _)) in Hc.
  apply drop_leading_chars in Hc. apply (proj1 (rev_chars _ _)) in Hc.
  by apply drop_leading_chars in Hc.
Qed.

(** X18: the file name that [handle_pane_output] hands on is made of
    characters of the line it was found in, and has no colon and no
    line break in it, whatever the output was: of a line such as
    [at src/app.js:10:5] it is everything before the first colon. *)
Theorem file_name_has_no_colon text line :
  List.find (λ l, PyStr.contains ".js:" l || PyStr.contains ".ts:" l)
            (PyStr.split "010"%char text) = Some line →
  let file_path := PyStr.strip (hd "" (PyStr.split ":"%char line)) in
  (":"%char ∉ list_ascii_of_string file_path) ∧
  ("010"%char ∉ list_ascii_of_string file_path) ∧
  (∀ c, c ∈ list_ascii_of_string file_path → c ∈ list_ascii_of_string line).
Proof.
  intros Hfind file_path.
  apply List.find_some in Hfind as [Hline%list_elem_of_In _].
  assert (Hhd : hd "" (PyStr.split ":"%char line) ∈ PyStr.split ":"%char line).
  { destruct (split_nonempty ":"%char line) as (p0 & ps & ->). by left. }
  assert (Hsub : ∀ c, c ∈ list_ascii_of_string file_path →
                      c ∈ list_ascii_of_string line).
  { intros c Hc%strip_chars. exact (split_pieces_chars _ _ _ _ Hhd Hc). }
  split; [|split; [|done]].
  - intros Hc%strip_chars. exact (split_pieces_no_sep _ _ _ Hhd Hc).
  - intros Hc%Hsub. exact (split_pieces_no_sep _ _ _ Hline Hc).
Qed.

(** ** Calls of the agent, answered *)


(** A call sent on a live machine and answered by the next piece of the
    feed. *)
Lemma drive_execute action fields rest m :
  live m →
  m_feed m = answer fields :: rest →
  fields !! "id" = Some (JInt (request_id (client (m_world m)) + 1)) →
  drive (execute action) m =
    (round_trip action fields m, Done (execute_finish (JObj fields))).
Proof.
  intros [(conn & Hws & Hopen) Hl] Hfeed Hid.
  destruct m as [w l self printed feed]. simpl in *. subst l feed.
  assert (Hsend : execute_send action w =
    (with_client (set_ws (Some (Connection true
        (outbox conn ++ [execute_request action (request_id (client w) + 1)]))))
       (fst (execute_issue action w)),
     Ok (Call (request_id (client w) + 1) (length (futures w))))).
  { unfold execute_send, bind. rewrite execute_issue_eq. cbn [fst snd].
    by erewrite ws_send_open by (simpl; eauto). }
  unfold execute. cbn [drive m_world]. rewrite Hsend, execute_issue_eq.
  cbn [fst snd drive with_world m_feed m_world m_listener m_self m_printed
       call_future].
  unfold hear. cbn [m_listener m_world m_self m_printed m_feed].
  unfold answer. cbn [listen_loop].
  match goal with
  | |- context [on_message _ ?w1] =>
      pose proof (on_message_resolves
                    (Call (request_id (client w) + 1) (length (futures w)))
                    fields w1 Hid) as Hm
  end.
  rewrite Hm.
  2:{ split; simpl; [apply lookup_insert_eq|by rewrite lookup_app_r, Nat.sub_diag]. }
  cbn [fst snd m_world futures call_future with_client client tasks].
  rewrite insert_app_r_alt by done. rewrite Nat.sub_diag. cbn [insert list_insert].
  rewrite list_lookup_middle by done.
  rewrite started_handler_same by done.
  unfold round_trip, written. simpl. rewrite Hws. simpl.
  by destruct (execute_finish (JObj fields)).
Qed.

Lemma round_trip_live action fields m : live (round_trip action fields m).
Proof. split; [|done]. eexists. by split. Qed.

Lemma execute_finish_result fields :
  fields !! "error" = None →
  execute_finish (JObj fields) = Ok (default JNull (fields !! "result")).
Proof. intros H. unfold execute_finish. simpl. by rewrite H. Qed.

(** A call sent on a live machine when nothing more arrives: the
    request is written and the caller stays suspended. *)
Lemma drive_execute_unanswered {A} action (k : json → coro A) conn m :
  ws (client (m_world m)) = Some conn → is_open conn = true →
  m_feed m = [] →
  ∃ m', drive (x <~ execute action ;; k x) m = (m', Suspended) ∧
        written m' = written m ++
          [execute_request action (request_id (client (m_world m)) + 1)] ∧
        m_printed m' = m_printed m.
Proof.
  intros Hws Hopen Hfeed. destruct m as [w l self printed feed]. simpl in *.
  subst feed. unfold execute. cbn [andthen drive m_world].
  assert (Hsend : execute_send action w =
    (with_client (set_ws (Some (Connection true
        (outbox conn ++ [execute_request action (request_id (client w) + 1)]))))
       (fst (execute_issue action w)),
     Ok (Call (request_id (client w) + 1) (length (futures w))))).
  { unfold execute_send, bind. rewrite execute_issue_eq. cbn [fst snd].
    by erewrite ws_send_open by (simpl; eauto). }
  rewrite Hsend. cbn [fst snd andthen drive with_world m_feed m_world m_listener
                      m_self m_printed].
  eexists. split; [reflexivity|]. unfold written. simpl. by rewrite Hws.
Qed.

Opaque execute.

(** [run_tests] on a live machine, its call answered without error. *)
Lemma drive_run_tests fields rest m :
  live m →
  m_feed m = answer fields :: rest →
  fields !! "id" = Some (JInt (request_id (client (m_world m)) + 1)) →
  fields !! "error" = None →
  drive run_tests m =
    (round_trip (run_tests_action (test_pane_id (m_self m))) fields
                (printing RunningTests m), Done (Ok tt)).
Proof.
  intros Hlive Hfeed Hid Herr. unfold run_tests. cbn [drive].
  rewrite drive_andthen.
  rewrite (drive_execute _ fields rest); [|done..].
  by rewrite execute_finish_result.
Qed.

Opaque run_tests.

(** X19: [open_and_fix_file], each of its calls answered without error:
    it sends three requests, in this order and with consecutive ids: to
    open the file in the editor pane, to save the file, and to run the
    tests in the test pane.  What it saves is [fixed_content] whatever
    the file is, and it never asks for the content of the file.  It
    prints its four lines in between. *)
Theorem open_and_fix_sends_three_requests file_path opened saved rerun rest m :
  live m →
  m_feed m = answer opened :: [] :: answer saved :: answer rerun :: rest →
  opened !! "id" = Some (JInt (request_id (client (m_world m)) + 1)) →
  opened !! "error" = None →
  saved !! "id" = Some (JInt (request_id (client (m_world m)) + 2)) →
  saved !! "error" = None →
  rerun !! "id" = Some (JInt (request_id (client (m_world m)) + 3)) →
  rerun !! "error" = None →
  ∃ m', drive (open_and_fix_file file_path) m = (m', Done (Ok tt)) ∧
        written m' = written m ++
          [execute_request (open_file_action file_path (editor_pane_id (m_self m)))
                           (request_id (client (m_world m)) + 1);
           execute_request (save_file_action file_path)
                           (request_id (client (m_world m)) + 2);
           execute_request (run_tests_action (test_pane_id (m_self m)))
                           (request_id (client (m_world m)) + 3)] ∧
        m_printed m' = m_printed m ++
          [OpeningFile file_path; AttemptingFix file_path; SavedFix file_path;
           RunningTests] ∧
        m_self m' = m_self m ∧
        m_feed m' = rest ∧
        live m'.
Proof.
  intros [Hsock Hl] Hfeed Hid1 He1 Hid2 He2 Hid3 He3.
  destruct m as [w l self printed feed]. simpl in *. subst l feed.
  unfold open_and_fix_file. cbn [drive m_world m_listener m_self m_printed m_feed].
  rewrite drive_andthen.
  rewrite (drive_execute _ opened ([] :: answer saved :: answer rerun :: rest));
    [|by split|done|done].
  rewrite execute_finish_result by done.
  cbn [drive round_trip m_feed m_world m_listener m_self m_printed tail hear
       listen_loop fst snd].
  rewrite started_handler_same by done.
  rewrite drive_andthen.
  rewrite (drive_execute _ saved (answer rerun :: rest));
    [|by split; [eexists|]|done|].
  2:{ simpl. rewrite Hid2. do 2 f_equal. lia. }
  rewrite execute_finish_result by done.
  cbn [drive round_trip m_feed m_world m_listener m_self m_printed tail hear
       listen_loop fst snd client request_id futures tasks].
  rewrite (drive_run_tests rerun rest); [|by split; [eexists|]|done| |done].
  2:{ simpl. rewrite Hid3. do 2 f_equal. lia. }
  eexists. split; [reflexivity|].
  unfold written. simpl.
  destruct Hsock as (conn & -> & _). simpl.
  rewrite <- !app_assoc. simpl.
  split; [|split; [|split; [done|split; [done|apply round_trip_live]]]].
  - unfold written, printing. simpl. rewrite <- !app_assoc. simpl.
    repeat (f_equal; try lia).
  - unfold printing. simpl. by rewrite <- ?app_assoc.
Qed.

(** X20: when the answer to the request to open the file is an error,
    [open_and_fix_file] raises an exception carrying that error at once:
    the open request is the only frame it has written, nothing is saved
    and the tests are not run again.  While no answer comes it stays
    suspended, having written the open request only. *)
Theorem open_and_fix_stops_at_error file_path opened err rest m :
  live m →
  opened !! "id" = Some (JInt (request_id (client (m_world m)) + 1)) →
  opened !! "error" = Some err →
  (m_feed m = answer opened :: rest →
   ∃ m', drive (open_and_fix_file file_path) m = (m', Done (Raise (Exception err))) ∧
         written m' = written m ++
           [execute_request (open_file_action file_path (editor_pane_id (m_self m)))
                            (request_id (client (m_world m)) + 1)] ∧
         m_printed m' = m_printed m ++ [OpeningFile file_path] ∧
         m_feed m' = rest) ∧
  (m_feed m = [] →
   ∃ m', drive (open_and_fix_file file_path) m = (m', Suspended) ∧
         written m' = written m ++
           [execute_request (open_file_action file_path (editor_pane_id (m_self m)))
                            (request_id (client (m_world m)) + 1)] ∧
         m_printed m' = m_printed m ++ [OpeningFile file_path]).
Proof.
  intros [Hsock Hl] Hid Herr.
  destruct m as [w l self printed feed]. simpl in *. subst l. split; intros ->.
  - unfold open_and_fix_file. cbn [drive m_world m_listener m_self m_printed m_feed].
    rewrite drive_andthen.
    rewrite (drive_execute _ opened rest); [|by split|done|done].
    rewrite (execute_finish_error _ _ Herr).
    eexists. split; [reflexivity|].
    destruct Hsock as (conn & Hws & _). unfold round_trip, written. simpl.
    by rewrite Hws.
  - destruct Hsock as (conn & Hws & Hopen).
    unfold open_and_fix_file. cbn [drive m_world m_listener m_self m_printed m_feed].
    match goal with
    | |- ∃ _, drive (andthen (execute ?a) ?k) ?m0 = _ ∧ _ =>
        destruct (drive_execute_unanswered a k conn m0 Hws Hopen eq_refl)
          as (m' & Hd & Hw & Hp)
    end.
    exists m'. split; [done|]. split; [|done].
    rewrite Hw. unfold written. simpl. by rewrite Hws.
Qed.

(** ** [setup] *)

(** [setup] up to its first call. *)
Lemma setup_registers on_output on_completed feed :
  drive (setup (Ok tt) on_output on_completed) (fresh feed) =
  drive (result <~ execute create_session_action ;;
         session <~ raising (Py.getitem result "id") ;;
         Assign (λ self, Agent (test_pane_id self) (editor_pane_id self) session)
           (Self (λ self,
              test_pane <~ execute (create_pane_action
                                      (current_session_id self) "terminal") ;;
              test_id <~ raising (Py.getitem test_pane "id") ;;
              Assign (λ self, Agent test_id (editor_pane_id self)
                                    (current_session_id self))
                (Self (λ self,
                   editor_pane <~
                     execute (create_pane_action (current_session_id self) "editor") ;;
                   editor_id <~ raising (Py.getitem editor_pane "id") ;;
                   Assign (λ self, Agent (test_pane_id self) editor_id
                                         (current_session_id self))
                     (Ret tt))))))
        (registered on_output on_completed feed).
Proof.
  unfold setup.
  rewrite drive_andthen.
  set (d := drive (Open _ _) _). vm_compute in d. subst d. cbv beta iota.
  rewrite drive_andthen.
  set (d := drive (Tell _ _) _). vm_compute in d. subst d. cbv beta iota.
  rewrite drive_andthen.
  set (d := drive (Tell _ _) _). vm_compute in d. subst d. cbv beta iota.
  rewrite drive_andthen.
  set (d := drive (Tell _ _) _). vm_compute in d. subst d. cbv beta iota.
  reflexivity.
Qed.

Lemma drive_assign {A} f (k : coro A) m :
  drive (Assign f k) m = drive k (with_self (f (m_self m)) m).
Proof. done. Qed.

Lemma drive_self {A} (k : TestDrivenAI → coro A) m :
  drive (Self k) m = drive (k (m_self m)) m.
Proof. done. Qed.

Lemma setup_completes on_output on_completed r1 r2 r3 session test editor rest :
  r1 !! "id" = Some (JInt 1) → r1 !! "error" = None →
  Py.getitem (default JNull (r1 !! "result")) "id" = Ok session →
  r2 !! "id" = Some (JInt 2) → r2 !! "error" = None →
  Py.getitem (default JNull (r2 !! "result")) "id" = Ok test →
  r3 !! "id" = Some (JInt 3) → r3 !! "error" = None →
  Py.getitem (default JNull (r3 !! "result")) "id" = Ok editor →
  drive (setup (Ok tt) on_output on_completed)
        (fresh (answer r1 :: answer r2 :: answer r3 :: rest)) =
    (set_up on_output on_completed r1 r2 r3 session test editor rest, Done (Ok tt)).
Proof.
  intros Hid1 He1 Hs Hid2 He2 Ht Hid3 He3 Hed.
  assert (Hlive : ∀ a action r m, live (with_self a (round_trip action r m))).
  { intros. split; [|done]. eexists. by split. }
  rewrite setup_registers, drive_andthen.
  rewrite (drive_execute _ r1 (answer r2 :: answer r3 :: rest));
    [|by split; [eexists|]|done|done].
  rewrite execute_finish_result by done. cbv beta iota.
  rewrite drive_raising, Hs, drive_assign, drive_self.
  cbn [m_self with_self round_trip registered test_pane_id editor_pane_id
       current_session_id].
  rewrite drive_andthen.
  rewrite (drive_execute _ r2 (answer r3 :: rest)); [|apply Hlive|done|done].
  rewrite execute_finish_result by done. cbv beta iota.
  rewrite drive_raising, Ht, drive_assign, drive_self.
  cbn [m_self with_self round_trip registered test_pane_id editor_pane_id
       current_session_id].
  rewrite drive_andthen.
  rewrite (drive_execute _ r3 rest); [|apply Hlive|done|done].
  rewrite execute_finish_result by done. cbv beta iota.
  rewrite drive_raising, Hed, drive_assign.
  cbn [m_self with_self round_trip registered test_pane_id editor_pane_id
       current_session_id].
  reflexivity.
Qed.

(** X21: [setup] on a new agent, the connection made and its three
    calls answered without error.  It writes four frames: the
    subscription, then the requests with ids 1, 2 and 3 to create the
    session, the terminal pane and the editor pane; the two pane
    requests carry as [session_id] the ["id"] of the result of the
    first call, and the agent keeps the ["id"]s of the three results as
    its session, test pane and editor pane. *)
Theorem setup_threads_the_ids on_output on_completed r1 r2 r3 session test editor rest :
  r1 !! "id" = Some (JInt 1) → r1 !! "error" = None →
  Py.getitem (default JNull (r1 !! "result")) "id" = Ok session →
  r2 !! "id" = Some (JInt 2) → r2 !! "error" = None →
  Py.getitem (default JNull (r2 !! "result")) "id" = Ok test →
  r3 !! "id" = Some (JInt 3) → r3 !! "error" = None →
  Py.getitem (default JNull (r3 !! "result")) "id" = Ok editor →
  ∃ m', drive (setup (Ok tt) on_output on_completed)
              (fresh (answer r1 :: answer r2 :: answer r3 :: rest)) =
          (m', Done (Ok tt)) ∧
        m_self m' = Agent test editor session ∧
        written m' =
          [subscribe_request subscribed_events;
           execute_request create_session_action 1;
           execute_request (create_pane_action session "terminal") 2;
           execute_request (create_pane_action session "editor") 3] ∧
        request_id (client (m_world m')) = 3%Z ∧
        m_printed m' = [] ∧
        m_feed m' = rest ∧
        live m'.
Proof.
  intros Hid1 He1 Hs Hid2 He2 Ht Hid3 He3 Hed.
  eexists. split; [by apply setup_completes|].
  repeat split; try done. eexists. by split.
Qed.

(** X22: [setup] subscribes to four types of event and registers
    handlers for two of them.  After it, the table has the handler of
    ["pane_output"] and that of ["command_completed"] and nothing else:
    an event of type ["file_opened"] or ["file_saved"], though
    subscribed to, is dropped by the listener without any effect. *)
Theorem subscribed_events_without_handler
    on_output on_completed r1 r2 r3 session test editor rest fields ev t :
  r1 !! "id" = Some (JInt 1) → r1 !! "error" = None →
  Py.getitem (default JNull (r1 !! "result")) "id" = Ok session →
  r2 !! "id" = Some (JInt 2) → r2 !! "error" = None →
  Py.getitem (default JNull (r2 !! "result")) "id" = Ok test →
  r3 !! "id" = Some (JInt 3) → r3 !! "error" = None →
  Py.getitem (default JNull (r3 !! "result")) "id" = Ok editor →
  t = "file_opened" ∨ t = "file_saved" →
  fields !! "id" = None → fields !! "event" = Some (JObj ev) →
  ev !! "type" = Some (JStr t) →
  ∃ m', drive (setup (Ok tt) on_output on_completed)
              (fresh (answer r1 :: answer r2 :: answer r3 :: rest)) =
          (m', Done (Ok tt)) ∧
        event_handlers (client (m_world m')) =
          <["command_completed" := [on_completed]]> {["pane_output" := [on_output]]} ∧
        (∀ u, u ∈ subscribed_events →
              is_Some (event_handlers (client (m_world m')) !! u) ↔
              u = "pane_output" ∨ u = "command_completed") ∧
        on_message (Encoded (JObj fields)) (m_world m') = (m_world m', Ok tt).
Proof.
  intros Hid1 He1 Hs Hid2 He2 Ht Hid3 He3 Hed Hty Hfid Hfev Hevt.
  eexists. split; [by apply setup_completes|].
  split; [done|]. split.
  - intros u Hu. unfold subscribed_events in Hu.
    repeat (apply elem_of_cons in Hu as [->|Hu]); try by apply elem_of_nil in Hu.
    + split; [by left|]. intros _. by eexists.
    + split; [by right|]. intros _. by eexists.
    + split; [intros [x Hx]; by vm_compute in Hx|by intros [|]].
    + split; [intros [x Hx]; by vm_compute in Hx|by intros [|]].
  - rewrite (on_message_event _ _ _ _ Hfid Hfev Hevt).
    by destruct Hty as [-> | ->].
Qed.

(** X23: [setup] stops at the first step that fails, and nothing of
    what it has done is taken back.  When the connection cannot be made
    it raises what [connect] raised, with nothing sent and no handler
    registered.  When the first call is answered with an error, or with
    a result that has no ["id"] to take (without ["result"] the result
    is [None], and subscripting it raises [TypeError]), it raises with
    the subscription and the first request written, no pane requested,
    and the fields of the agent still [None]. *)
Theorem setup_stops_at_first_failure on_output on_completed r1 rest :
  (∀ e feed,
     drive (setup (Raise e) on_output on_completed) (fresh feed) =
       (fresh feed, Done (Raise e))) ∧
  (r1 !! "id" = Some (JInt 1) →
   ∀ e, execute_finish (JObj r1) = Raise e ∨
        (r1 !! "error" = None ∧
         Py.getitem (default JNull (r1 !! "result")) "id" = Raise e) →
     ∃ m', drive (setup (Ok tt) on_output on_completed) (fresh (answer r1 :: rest)) =
             (m', Done (Raise e)) ∧
           written m' = [subscribe_request subscribed_events;
                         execute_request create_session_action 1] ∧
           m_self m' = Agent JNull JNull JNull ∧
           m_feed m' = rest) ∧
  (r1 !! "error" = None → r1 !! "result" = None →
   Py.getitem (default JNull (r1 !! "result")) "id" = Raise TypeError).
Proof.
  split; [|split].
  - intros e feed. unfold setup. by rewrite drive_andthen.
  - intros Hid e Hcase.
    rewrite setup_registers, drive_andthen.
    rewrite (drive_execute _ r1 rest); [|by split; [eexists|]|done|done].
    destruct Hcase as [->|[Herr Hget]].
    + eexists. by split.
    + rewrite execute_finish_result by done. cbv beta iota.
      rewrite drive_raising, Hget. eexists. by split.
  - intros _ ->. done.
Qed.

(** ** [main] *)



(** ** [develop_feature] *)



(** * The properties of the agent at work on the samples *)

Lemma live_ready feed : live (ready feed).
Proof. split; [|done]. eexists. by split. Defined.



Lemma file_name_has_no_colon_sample :
  List.find (λ l, PyStr.contains ".js:" l || PyStr.contains ".ts:" l)
            (PyStr.split "010"%char failing_output) = Some "    at src/app.js:10:5" ∧
  (":"%char ∉ list_ascii_of_string
                (PyStr.strip (hd "" (PyStr.split ":"%char "    at src/app.js:10:5")))) ∧
  ("010"%char ∉ list_ascii_of_string
                  (PyStr.strip (hd "" (PyStr.split ":"%char "    at src/app.js:10:5")))) ∧
  (∀ c, c ∈ list_ascii_of_string
              (PyStr.strip (hd "" (PyStr.split ":"%char "    at src/app.js:10:5"))) →
        c ∈ list_ascii_of_string "    at src/app.js:10:5").
Proof.
  assert (H : List.find (λ l, PyStr.contains ".js:" l || PyStr.contains ".ts:" l)
                (PyStr.split "010"%char failing_output) =
              Some "    at src/app.js:10:5") by (vm_compute; reflexivity).
  split; [exact H|].
  exact (file_name_has_no_colon failing_output "    at src/app.js:10:5" H).
Defined.

Lemma open_and_fix_sends_three_requests_sample :
  (live (ready fix_feed) ∧
   m_feed (ready fix_feed) =
     answer (reply 4) :: [] :: answer (reply 5) :: answer (reply 6) :: [] ∧
   reply 4 !! "id" = Some (JInt (request_id (client (m_world (ready fix_feed))) + 1)) ∧
   reply 4 !! "error" = None ∧
   reply 5 !! "id" = Some (JInt (request_id (client (m_world (ready fix_feed))) + 2)) ∧
   reply 5 !! "error" = None ∧
   reply 6 !! "id" = Some (JInt (request_id (client (m_world (ready fix_feed))) + 3)) ∧
   reply 6 !! "error" = None) ∧
  ∃ m', drive (open_and_fix_file "src/app.js") (ready fix_feed) = (m', Done (Ok tt)) ∧
        written m' = written (ready fix_feed) ++
          [execute_request
             (open_file_action "src/app.js" (editor_pane_id (m_self (ready fix_feed))))
             (request_id (client (m_world (ready fix_feed))) + 1);
           execute_request (save_file_action "src/app.js")
             (request_id (client (m_world (ready fix_feed))) + 2);
           execute_request
             (run_tests_action (test_pane_id (m_self (ready fix_feed))))
             (request_id (client (m_world (ready fix_feed))) + 3)] ∧
        m_printed m' = m_printed (ready fix_feed) ++
          [OpeningFile "src/app.js"; AttemptingFix "src/app.js";
           SavedFix "src/app.js"; RunningTests] ∧
        m_self m' = m_self (ready fix_feed) ∧
        m_feed m' = [] ∧
        live m'.
Proof.
  assert (H0 : m_feed (ready fix_feed) =
    answer (reply 4) :: [] :: answer (reply 5) :: answer (reply 6) :: [])
    by reflexivity.
  assert (H1 : reply 4 !! "id" =
    Some (JInt (request_id (client (m_world (ready fix_feed))) + 1)))
    by (vm_compute; reflexivity).
  assert (H2 : reply 4 !! "error" = None) by (vm_compute; reflexivity).
  assert (H3 : reply 5 !! "id" =
    Some (JInt (request_id (client (m_world (ready fix_feed))) + 2)))
    by (vm_compute; reflexivity).
  assert (H4 : reply 5 !! "error" = None) by (vm_compute; reflexivity).
  assert (H5 : reply 6 !! "id" =
    Some (JInt (request_id (client (m_world (ready fix_feed))) + 3)))
    by (vm_compute; reflexivity).
  assert (H6 : reply 6 !! "error" = None) by (vm_compute; reflexivity).
  split; [by repeat split; try apply live_ready|].
  exact (open_and_fix_sends_three_requests "src/app.js" (reply 4) (reply 5) (reply 6) []
           (ready fix_feed) (live_ready fix_feed) H0 H1 H2 H3 H4 H5 H6).
Defined.

Lemma open_and_fix_stops_at_error_sample :
  (live (ready [answer (error_reply 4)]) ∧
   error_reply 4 !! "id" =
     Some (JInt (request_id (client (m_world (ready [answer (error_reply 4)]))) + 1)) ∧
   error_reply 4 !! "error" = Some sample_error ∧
   m_feed (ready [answer (error_reply 4)]) = answer (error_reply 4) :: []) ∧
  ∃ m', drive (open_and_fix_file "src/app.js") (ready [answer (error_reply 4)]) =
          (m', Done (Raise (Exception sample_error))) ∧
        written m' = written (ready [answer (error_reply 4)]) ++
          [execute_request
             (open_file_action "src/app.js"
                (editor_pane_id (m_self (ready [answer (error_reply 4)]))))
             (request_id (client (m_world (ready [answer (error_reply 4)]))) + 1)] ∧
        m_printed m' = m_printed (ready [answer (error_reply 4)]) ++
          [OpeningFile "src/app.js"] ∧
        m_feed m' = [].
Proof.
  assert (H1 : error_reply 4 !! "id" =
    Some (JInt (request_id (client (m_world (ready [answer (error_reply 4)]))) + 1)))
    by (vm_compute; reflexivity).
  assert (H2 : error_reply 4 !! "error" = Some sample_error)
    by (vm_compute; reflexivity).
  assert (H3 : m_feed (ready [answer (error_reply 4)]) = answer (error_reply 4) :: [])
    by reflexivity.
  split; [by repeat split; try apply live_ready|].
  exact (proj1 (open_and_fix_stops_at_error "src/app.js" (error_reply 4) sample_error
                  [] (ready [answer (error_reply 4)]) (live_ready _) H1 H2) H3).
Defined.

Lemma created_reply_facts n v :
  created_reply n v !! "id" = Some (JInt n) ∧
  created_reply n v !! "error" = None ∧
  Py.getitem (default JNull (created_reply n v !! "result")) "id" = Ok v.
Proof. repeat split; vm_compute; reflexivity. Defined.

Lemma setup_threads_the_ids_sample :
  (created_reply 1 (JStr "s1") !! "id" = Some (JInt 1) ∧
   created_reply 1 (JStr "s1") !! "error" = None ∧
   Py.getitem (default JNull (created_reply 1 (JStr "s1") !! "result")) "id" =
     Ok (JStr "s1") ∧
   created_reply 2 (JInt 10) !! "id" = Some (JInt 2) ∧
   created_reply 2 (JInt 10) !! "error" = None ∧
   Py.getitem (default JNull (created_reply 2 (JInt 10) !! "result")) "id" =
     Ok (JInt 10) ∧
   created_reply 3 (JInt 11) !! "id" = Some (JInt 3) ∧
   created_reply 3 (JInt 11) !! "error" = None ∧
   Py.getitem (default JNull (created_reply 3 (JInt 11) !! "result")) "id" =
     Ok (JInt 11)) ∧
  ∃ m', drive (setup (Ok tt) quiet_handler last_handler)
              (fresh (answer (created_reply 1 (JStr "s1")) ::
                      answer (created_reply 2 (JInt 10)) ::
                      answer (created_reply 3 (JInt 11)) :: fix_feed)) =
          (m', Done (Ok tt)) ∧
        m_self m' = Agent (JInt 10) (JInt 11) (JStr "s1") ∧
        written m' =
          [subscribe_request subscribed_events;
           execute_request create_session_action 1;
           execute_request (create_pane_action (JStr "s1") "terminal") 2;
           execute_request (create_pane_action (JStr "s1") "editor") 3] ∧
        request_id (client (m_world m')) = 3%Z ∧
        m_printed m' = [] ∧
        m_feed m' = fix_feed ∧
        live m'.
Proof.
  destruct (created_reply_facts 1 (JStr "s1")) as (A1 & A2 & A3).
  destruct (created_reply_facts 2 (JInt 10)) as (B1 & B2 & B3).
  destruct (created_reply_facts 3 (JInt 11)) as (C1 & C2 & C3).
  split; [by repeat split|].
  exact (setup_threads_the_ids quiet_handler last_handler _ _ _ _ _ _ fix_feed
           A1 A2 A3 B1 B2 B3 C1 C2 C3).
Defined.

Lemma subscribed_events_without_handler_sample :
  (created_reply 1 (JStr "s1") !! "id" = Some (JInt 1) ∧
   created_reply 2 (JInt 10) !! "id" = Some (JInt 2) ∧
   created_reply 3 (JInt 11) !! "id" = Some (JInt 3) ∧
   ("file_saved" = "file_opened" ∨ "file_saved" = "file_saved") ∧
   ({["event" := JObj {["type" := JStr "file_saved"]}]} : gmap string json) !! "id"
     = None) ∧
  ∃ m', drive (setup (Ok tt) quiet_handler last_handler)
              (fresh (answer (created_reply 1 (JStr "s1")) ::
                      answer (created_reply 2 (JInt 10)) ::
                      answer (created_reply 3 (JInt 11)) :: [])) =
          (m', Done (Ok tt)) ∧
        event_handlers (client (m_world m')) =
          <["command_completed" := [last_handler]]> {["pane_output" := [quiet_handler]]} ∧
        (∀ u, u ∈ subscribed_events →
              is_Some (event_handlers (client (m_world m')) !! u) ↔
              u = "pane_output" ∨ u = "command_completed") ∧
        on_message (Encoded (JObj {["event" := JObj {["type" := JStr "file_saved"]}]}))
                   (m_world m') = (m_world m', Ok tt).
Proof.
  destruct (created_reply_facts 1 (JStr "s1")) as (A1 & A2 & A3).
  destruct (created_reply_facts 2 (JInt 10)) as (B1 & B2 & B3).
  destruct (created_reply_facts 3 (JInt 11)) as (C1 & C2 & C3).
  assert (H1 : "file_saved" = "file_opened" ∨ "file_saved" = "file_saved")
    by (by right).
  assert (H2 : ({["event" := JObj {["type" := JStr "file_saved"]}]}
                  : gmap string json) !! "id" = None) by (vm_compute; reflexivity).
  assert (H3 : ({["event" := JObj {["type" := JStr "file_saved"]}]}
                  : gmap string json) !! "event" =
               Some (JObj {["type" := JStr "file_saved"]}))
    by (vm_compute; reflexivity).
  assert (H4 : ({["type" := JStr "file_saved"]} : gmap string json) !! "type" =
               Some (JStr "file_saved")) by (vm_compute; reflexivity).
  split; [by repeat split|].
  exact (subscribed_events_without_handler quiet_handler last_handler _ _ _ _ _ _ []
           _ _ "file_saved" A1 A2 A3 B1 B2 B3 C1 C2 C3 H1 H2 H3 H4).
Defined.

Lemma setup_stops_at_first_failure_sample :
  (bare_reply !! "id" = Some (JInt 1) ∧
   bare_reply !! "error" = None ∧
   Py.getitem (default JNull (bare_reply !! "result")) "id" = Raise TypeError) ∧
  ∃ m', drive (setup (Ok tt) quiet_handler last_handler)
              (fresh (answer bare_reply :: fix_feed)) =
          (m', Done (Raise TypeError)) ∧
        written m' = [subscribe_request subscribed_events;
                      execute_request create_session_action 1] ∧
        m_self m' = Agent JNull JNull JNull ∧
        m_feed m' = fix_feed.
Proof.
  assert (H1 : bare_reply !! "id" = Some (JInt 1)) by (vm_compute; reflexivity).
  assert (H2 : bare_reply !! "error" = None) by (vm_compute; reflexivity).
  assert (H3 : Py.getitem (default JNull (bare_reply !! "result")) "id" =
               Raise TypeError) by (vm_compute; reflexivity).
  split; [by repeat split|].
  exact (proj1 (proj2 (setup_stops_at_first_failure quiet_handler last_handler
                         bare_reply fix_feed))
               H1 TypeError (or_intror (conj H2 H3))).
Defined.


